(** * The frame-level decision pipeline of the vehicle proximity safety system

    A shallow embedding of [config/settings.py], [models/depth_estimator.py],
    [utils/roi_manager.py], [utils/warnings.py] and of the decision part of
    [models/detector.py], followed by the properties of the pipeline.

    Conventions of the embedding.
    - Python [int] is [Z]; sizes taken from [ndarray.shape] are [nat].
    - Python and numpy floating-point numbers (box coordinates, confidences,
      depth values) are exact rationals [Q]; rounding, infinities and NaN
      inputs are outside the model.  The one NaN the code can produce by
      itself, the median of an empty sample list, is kept ([npfloat]).
    - A raised exception is a value of the error monad [res]. *)

From Stdlib Require Import ZArith QArith List Bool Lia Lqa Sorted Permutation.
From stdpp Require Import base gmap strings list pretty.
Import ListNotations.

Local Open Scope Z_scope.

(** ** Exceptions and the error monad *)

Inductive exn : Type :=
| KeyError (key : Z)     (* [class_names[class_id]] on a missing key *)
| IndexError.            (* [depth_map[y, x]] outside the array *)

Inductive res (A : Type) : Type :=
| Ok (a : A)
| Raise (e : exn).
Arguments Ok {A} a.
Arguments Raise {A} e.

Definition bind {A B : Type} (m : res A) (k : A -> res B) : res B :=
  match m with
  | Ok a => k a
  | Raise e => Raise e
  end.

Declare Scope res_scope.
Delimit Scope res_scope with res.
Notation "'do' x <- m ; k" := (bind m (fun x => k))
  (at level 10, x name, m at level 100, k at level 200) : res_scope.
Local Open Scope res_scope.

Definition returns {A : Type} (m : res A) : Prop := exists a, m = Ok a.

(** [for x in xs: body], collecting what each iteration appends. *)
Fixpoint for_collect {A B : Type} (body : A -> res B) (xs : list A) : res (list B) :=
  match xs with
  | [] => Ok []
  | x :: rest =>
      do v <- body x ;
      do vs <- for_collect body rest ;
      Ok (v :: vs)
  end.

(** ** Python and numpy primitives *)

(** [int(q)] on a float: truncation towards zero. *)
Definition py_int (q : Q) : Z := Z.quot (Qnum q) (Z.pos (Qden q)).

(** [a > b] on floats. *)
Definition Qgtb (a b : Q) : bool := negb (Qle_bool a b).
(** [a < b] on floats. *)
Definition Qltb (a b : Q) : bool := negb (Qle_bool b a).

(** [range(start, stop, step)] for a positive step. *)
Definition py_range (start stop step : Z) : list Z :=
  map (fun i => start + step * Z.of_nat i)
      (seq 0 (Z.to_nat ((stop - start + step - 1) / step))).

(** A two-dimensional numpy array: [shape[0]] rows, [shape[1]] columns. *)
Record ndarray : Type := {
  shape0 : nat;
  shape1 : nat;
  item : Z -> Z -> Q
}.

(** numpy's index normalisation along one axis: indices in [[0, dim)] are
    taken as they are, indices in [[-dim, 0)] count from the end, anything
    else raises [IndexError]. *)
Definition norm_index (dim : nat) (i : Z) : res Z :=
  if (0 <=? i) && (i <? Z.of_nat dim) then Ok i
  else if (- Z.of_nat dim <=? i) && (i <? 0) then Ok (i + Z.of_nat dim)
  else Raise IndexError.

(** [a[y, x]] *)
Definition getitem (a : ndarray) (y x : Z) : res Q :=
  do i <- norm_index (shape0 a) y ;
  do j <- norm_index (shape1 a) x ;
  Ok (item a i j).

(** The value of a numpy float computation that may be NaN. *)
Inductive npfloat : Type :=
| Fin (q : Q)
| NaN.

Fixpoint insert_sorted (x : Q) (l : list Q) : list Q :=
  match l with
  | [] => [x]
  | y :: rest => if Qle_bool x y then x :: y :: rest else y :: insert_sorted x rest
  end.

Definition np_sort (l : list Q) : list Q := fold_right insert_sorted [] l.

(** [np.median(values)]: the middle element of the sorted values, the mean of
    the two middle elements for an even count, and NaN (with a warning, not an
    exception) for no values at all. *)
Definition np_median (values : list Q) : npfloat :=
  match values with
  | [] => NaN
  | _ =>
      let s := np_sort values in
      let n := length values in
      if Nat.even n
      then Fin ((nth (n / 2 - 1)%nat s 0 + nth (n / 2)%nat s 0) / 2)%Q
      else Fin (nth (n / 2)%nat s 0%Q)
  end.

(** [m > threshold] for an integer threshold; false on NaN. *)
Definition np_gt (m : npfloat) (threshold : Z) : bool :=
  match m with
  | Fin q => Qgtb q (inject_Z threshold)
  | NaN => false
  end.

(** ** config/settings.py *)
Module Settings.

Definition ROAD_CLASSES : list (string * Z) :=
  [ ("person", 0); ("bicycle", 1); ("car", 2); ("motorcycle", 3);
    ("bus", 5); ("train", 6); ("truck", 7) ]%string.

Definition CONFIDENCE_THRESHOLD : Q := 5 # 10.
Definition DEPTH_COLLISION_SAMPLE_SIZE : Z := 5.

Definition WARNING_THRESHOLD : Z := 3.
Definition COLLISION_THRESHOLD : Z := 600.
Definition COLLISION_ALERT_THRESHOLD : Z := 2.

Definition CLOSE_DEPTH_THRESHOLD : Z := 1200.

Definition GRID_COLS : Z := 4.
Definition GRID_ROWS : Z := 3.

End Settings.
Import Settings.

(** [ROAD_CLASSES.values()] *)
Definition dict_values {K V : Type} (d : list (K * V)) : list V := map snd d.

(** [class_id in ROAD_CLASSES.values()] *)
Definition in_road_classes (class_id : Z) : bool :=
  existsb (Z.eqb class_id) (dict_values ROAD_CLASSES).

(** [class_names[class_id]] *)
Definition dict_getitem (class_names : gmap Z string) (class_id : Z) : res string :=
  match class_names !! class_id with
  | Some name => Ok name
  | None => Raise (KeyError class_id)
  end.

(** ** models/depth_estimator.py: depth sampling *)

(** The pixel read for the offset [(dx, dy)]:
    [sample_x = max(0, min(depth_map.shape[1]-1, center_x + dx))] and
    [sample_y = max(0, min(depth_map.shape[0]-1, center_y + dy))],
    as the index pair [(sample_y, sample_x)]. *)
Definition sample_index (depth_map : ndarray) (center_x center_y dx dy : Z) : Z * Z :=
  let sample_x := Z.max 0 (Z.min (Z.of_nat (shape1 depth_map) - 1) (center_x + dx)) in
  let sample_y := Z.max 0 (Z.min (Z.of_nat (shape0 depth_map) - 1) (center_y + dy)) in
  (sample_y, sample_x).

(** The index pairs visited by
    [for dx in range(-sample_size, sample_size, 2):
       for dy in range(-sample_size, sample_size, 2): ...], in order. *)
Definition sample_indices (depth_map : ndarray) (center_x center_y sample_size : Z)
  : list (Z * Z) :=
  flat_map (fun dx =>
              map (fun dy => sample_index depth_map center_x center_y dx dy)
                  (py_range (- sample_size) sample_size 2))
           (py_range (- sample_size) sample_size 2).

(** The sampling loop: [depth_values.append(depth_map[sample_y, sample_x])]
    for every offset. *)
Definition sample_depth_values (depth_map : ndarray) (center_x center_y sample_size : Z)
  : res (list Q) :=
  for_collect (fun '(sample_y, sample_x) => getitem depth_map sample_y sample_x)
              (sample_indices depth_map center_x center_y sample_size).

(** [DepthEstimator.get_depth_at_location] *)
Definition get_depth_at_location (depth_map : ndarray) (center_x center_y sample_size : Z)
  : res npfloat :=
  do depth_values <- sample_depth_values depth_map center_x center_y sample_size ;
  Ok (np_median depth_values).

(** ** Detections: the detector's per-frame results *)

(** One detected box: [box.xyxy[0]], [box.conf[0]] and [int(box.cls[0])]. *)
Record Box : Type := {
  xyxy : Q * Q * Q * Q;
  conf : Q;
  cls : Z
}.

(** One element of the detector's results; [result.boxes] may be [None]. *)
Record Result : Type := {
  boxes : option (list Box)
}.

(** All boxes of a results object, in iteration order. *)
Definition detections (results : list Result) : list Box :=
  flat_map (fun result => match boxes result with Some bs => bs | None => [] end) results.

(** The filter of both loops:
    [confidence > CONFIDENCE_THRESHOLD and class_id in ROAD_CLASSES.values()]. *)
Definition road_relevant (confidence : Q) (class_id : Z) : bool :=
  Qgtb confidence CONFIDENCE_THRESHOLD && in_road_classes class_id.

(** ** utils/roi_manager.py *)
Module ROIManager.

(** [ROIManager.is_in_collision_roi] *)
Definition is_in_collision_roi (x1 y1 x2 y2 : Q) (frame_width frame_height : Z) : bool :=
  let grid_width := frame_width / GRID_COLS in
  let grid_height := frame_height / GRID_ROWS in
  let roi_top := frame_height - grid_height in
  let roi_bottom := frame_height in
  let roi_left := grid_width in
  let roi_right := 3 * grid_width in
  negb (Qltb x2 (inject_Z roi_left) || Qgtb x1 (inject_Z roi_right)
        || Qltb y2 (inject_Z roi_top) || Qgtb y1 (inject_Z roi_bottom)).

(** [ROIManager.get_roi_coordinates] *)
Definition get_roi_coordinates (frame_width frame_height : Z) : Z * Z * Z * Z :=
  let grid_width := frame_width / GRID_COLS in
  let grid_height := frame_height / GRID_ROWS in
  let roi_top := frame_height - grid_height in
  let roi_bottom := frame_height in
  let roi_left := grid_width in
  let roi_right := 3 * grid_width in
  (roi_left, roi_top, roi_right, roi_bottom).

Section CheckCollisionAlert.
Variables (depth_map : option ndarray) (frame_width frame_height : Z)
          (class_names : gmap Z string).

(** [for box in boxes: ...] of [check_collision_alert], threading the local
    variable [collision_detected]; the [break] leaves this loop only. *)
Fixpoint collision_boxes_loop (bs : list Box) (collision_detected : bool) : res bool :=
  match bs with
  | [] => Ok collision_detected
  | box :: rest =>
      let '(x1, y1, x2, y2) := xyxy box in
      let confidence := conf box in
      let class_id := cls box in
      do class_name <- dict_getitem class_names class_id ;
      if road_relevant confidence class_id then
        if is_in_collision_roi x1 y1 x2 y2 frame_width frame_height then
          match depth_map with
          | Some dm =>
              let center_x := py_int ((x1 + x2) / 2) in
              let center_y := py_int ((y1 + y2) / 2) in
              do depth_values <-
                sample_depth_values dm center_x center_y DEPTH_COLLISION_SAMPLE_SIZE ;
              let median_depth := np_median depth_values in
              if np_gt median_depth COLLISION_THRESHOLD
              then Ok true
              else collision_boxes_loop rest collision_detected
          | None => collision_boxes_loop rest collision_detected
          end
        else collision_boxes_loop rest collision_detected
      else collision_boxes_loop rest collision_detected
  end.

(** [for result in results: ...] of [check_collision_alert]. *)
Fixpoint collision_results_loop (results : list Result) (collision_detected : bool)
  : res bool :=
  match results with
  | [] => Ok collision_detected
  | result :: rest =>
      match boxes result with
      | Some bs =>
          do collision_detected' <- collision_boxes_loop bs collision_detected ;
          collision_results_loop rest collision_detected'
      | None => collision_results_loop rest collision_detected
      end
  end.
End CheckCollisionAlert.

(** [ROIManager.check_collision_alert]; the [frame] argument is not used by
    the method and is left out. *)
Definition check_collision_alert (results : list Result) (depth_map : option ndarray)
    (frame_width frame_height : Z) (class_names : gmap Z string) : res bool :=
  collision_results_loop depth_map frame_width frame_height class_names results false.

End ROIManager.

(** ** utils/warnings.py *)
Module WarningSystem.

Record t : Type := {
  left_warning_frames : Z;
  right_warning_frames : Z;
  warning_threshold : Z;
  collision_alert_frames : Z;
  collision_alert_threshold : Z
}.

(** [WarningSystem.__init__] *)
Definition init : t := {|
  left_warning_frames := 0;
  right_warning_frames := 0;
  warning_threshold := WARNING_THRESHOLD;
  collision_alert_frames := 0;
  collision_alert_threshold := COLLISION_ALERT_THRESHOLD
|}.

(** Truth value of a Python list: non-empty. *)
Definition truthy {A : Type} (l : list A) : bool :=
  match l with [] => false | _ :: _ => true end.

(** [WarningSystem.update_warning_persistence] *)
Definition update_warning_persistence (self : t)
    (left_close_vehicles right_close_vehicles : list string) : t :=
  let self :=
    if truthy left_close_vehicles
    then {| left_warning_frames := left_warning_frames self + 1;
            right_warning_frames := right_warning_frames self;
            warning_threshold := warning_threshold self;
            collision_alert_frames := collision_alert_frames self;
            collision_alert_threshold := collision_alert_threshold self |}
    else {| left_warning_frames := 0;
            right_warning_frames := right_warning_frames self;
            warning_threshold := warning_threshold self;
            collision_alert_frames := collision_alert_frames self;
            collision_alert_threshold := collision_alert_threshold self |} in
  if truthy right_close_vehicles
  then {| left_warning_frames := left_warning_frames self;
          right_warning_frames := right_warning_frames self + 1;
          warning_threshold := warning_threshold self;
          collision_alert_frames := collision_alert_frames self;
          collision_alert_threshold := collision_alert_threshold self |}
  else {| left_warning_frames := left_warning_frames self;
          right_warning_frames := 0;
          warning_threshold := warning_threshold self;
          collision_alert_frames := collision_alert_frames self;
          collision_alert_threshold := collision_alert_threshold self |}.

(** [WarningSystem.update_collision_persistence] *)
Definition update_collision_persistence (self : t) (collision_detected : bool) : t :=
  if collision_detected
  then {| left_warning_frames := left_warning_frames self;
          right_warning_frames := right_warning_frames self;
          warning_threshold := warning_threshold self;
          collision_alert_frames := collision_alert_frames self + 1;
          collision_alert_threshold := collision_alert_threshold self |}
  else {| left_warning_frames := left_warning_frames self;
          right_warning_frames := right_warning_frames self;
          warning_threshold := warning_threshold self;
          collision_alert_frames := 0;
          collision_alert_threshold := collision_alert_threshold self |}.

(** [WarningSystem.should_show_collision_alert] *)
Definition should_show_collision_alert (self : t) : bool :=
  collision_alert_frames self >=? collision_alert_threshold self.

(** The two conditions under which [WarningSystem.draw_warnings] draws:
    [self.left_warning_frames >= self.warning_threshold] and
    [self.right_warning_frames >= self.warning_threshold]. *)
Definition shows_left_warning (self : t) : bool :=
  left_warning_frames self >=? warning_threshold self.
Definition shows_right_warning (self : t) : bool :=
  right_warning_frames self >=? warning_threshold self.

Section GetCloseVehiclesBySide.
Variables (depth_map : option ndarray) (frame_width : Z)
          (class_names : gmap Z string).

(** [for box in boxes: ...] of [get_close_vehicles_by_side], threading the
    two result lists. *)
Fixpoint close_boxes_loop (bs : list Box)
    (left_close_vehicles right_close_vehicles : list string)
  : res (list string * list string) :=
  match bs with
  | [] => Ok (left_close_vehicles, right_close_vehicles)
  | box :: rest =>
      let '(x1, y1, x2, y2) := xyxy box in
      let confidence := conf box in
      let class_id := cls box in
      do class_name <- dict_getitem class_names class_id ;
      if road_relevant confidence class_id then
        do is_close <-
          match depth_map with
          | Some dm =>
              let center_x := py_int ((x1 + x2) / 2) in
              let center_y := py_int ((y1 + y2) / 2) in
              do depth_values <- sample_depth_values dm center_x center_y 5 ;
              let median_depth := np_median depth_values in
              Ok (np_gt median_depth CLOSE_DEPTH_THRESHOLD)
          | None => Ok false
          end ;
        if is_close then
          let center_x := ((x1 + x2) / 2)%Q in
          if Qltb center_x (inject_Z frame_width / 2) then
            close_boxes_loop rest (left_close_vehicles ++ [class_name])
                             right_close_vehicles
          else
            close_boxes_loop rest left_close_vehicles
                             (right_close_vehicles ++ [class_name])
        else close_boxes_loop rest left_close_vehicles right_close_vehicles
      else close_boxes_loop rest left_close_vehicles right_close_vehicles
  end.

(** [for result in results: ...] of [get_close_vehicles_by_side]. *)
Fixpoint close_results_loop (results : list Result)
    (left_close_vehicles right_close_vehicles : list string)
  : res (list string * list string) :=
  match results with
  | [] => Ok (left_close_vehicles, right_close_vehicles)
  | result :: rest =>
      match boxes result with
      | Some bs =>
          do lr <- close_boxes_loop bs left_close_vehicles right_close_vehicles ;
          close_results_loop rest (fst lr) (snd lr)
      | None => close_results_loop rest left_close_vehicles right_close_vehicles
      end
  end.
End GetCloseVehiclesBySide.

(** [WarningSystem.get_close_vehicles_by_side] *)
Definition get_close_vehicles_by_side (results : list Result)
    (depth_map : option ndarray) (frame_width : Z) (class_names : gmap Z string)
  : res (list string * list string) :=
  close_results_loop depth_map frame_width class_names results [] [].

End WarningSystem.

(** ** models/detector.py: the per-frame decision *)
Module RoadObjectDetector.

(** The part of the detector object the decision pipeline reads and writes:
    [self.class_names] (the detection model's name table) and
    [self.warning_system]. *)
Record t : Type := {
  class_names : gmap Z string;
  warning_system : WarningSystem.t
}.

(** What the two external models deliver for one frame: the frame's
    [shape[0]] and [shape[1]], the detection results, and the depth map
    ([None] when [use_depth] is false). *)
Record Frame : Type := {
  frame_height : nat;
  frame_width : nat;
  results : list Result;
  depth_map : option ndarray
}.

(** The decision part of [RoadObjectDetector._process_frame]: classification,
    persistence update, collision check, persistence update.  Drawing is not
    modelled.  An exception is not caught by the callers of the method and
    ends the session, so no state is kept for a frame that raises. *)
Definition process_frame (self : t) (frame : Frame) : res t :=
  do lr <- WarningSystem.get_close_vehicles_by_side
             (results frame) (depth_map frame) (Z.of_nat (frame_width frame))
             (class_names self) ;
  let ws := WarningSystem.update_warning_persistence
              (warning_system self) (fst lr) (snd lr) in
  do collision_detected <-
    match depth_map frame with
    | Some dm =>
        ROIManager.check_collision_alert
          (results frame) (Some dm) (Z.of_nat (frame_width frame))
          (Z.of_nat (frame_height frame)) (class_names self)
    | None => Ok false
    end ;
  let ws := WarningSystem.update_collision_persistence ws collision_detected in
  Ok {| class_names := class_names self; warning_system := ws |}.

(** The three flags the renderer reads after a frame has been processed. *)
Definition show_left_warning (self : t) : bool :=
  WarningSystem.shows_left_warning (warning_system self).
Definition show_right_warning (self : t) : bool :=
  WarningSystem.shows_right_warning (warning_system self).
Definition show_collision_alert (self : t) : bool :=
  WarningSystem.should_show_collision_alert (warning_system self).

(** [RoadObjectDetector.__init__] for a detection model with the given name
    table. *)
Definition init (names : gmap Z string) : t :=
  {| class_names := names; warning_system := WarningSystem.init |}.

End RoadObjectDetector.

(** ** Calls into the drawing library *)

(** A colour, as the [(B, G, R)] tuple of the settings. *)
Definition Color : Type := (Z * Z * Z)%type.

(** The two drawing calls of the code, with the arguments that vary:
    [cv2.rectangle(img, pt1, pt2, color, thickness)] and
    [cv2.putText(img, text, org, font, fontScale, color, thickness)]. *)
Inductive DrawCall : Type :=
| rectangle (pt1 pt2 : Z * Z) (color : Color) (thickness : Z)
| putText (text : string) (org : Z * Z) (fontScale : Q) (color : Color) (thickness : Z).

(** The entries of [COLORS] that the code reads. *)
Module Colors.
Definition truck_bus : Color := (255, 0, 0).
Definition motorcycle : Color := (0, 140, 255).
Definition person : Color := (0, 0, 255).
Definition default : Color := (0, 255, 0).
End Colors.

(** [x in names] for a list of strings. *)
Definition str_in (x : string) (names : list string) : bool :=
  existsb (String.eqb x) names.

(** ** models/depth_estimator.py: the distance label *)
Module DepthEstimator.

Section EstimateDistance.
(** Python's [f"{value:.2f}"], which the code applies to the median. *)
Variable format_2f : npfloat -> string.

End EstimateDistance.

End DepthEstimator.

(** ** utils/visualization.py *)
Module Visualizer.

(** [Visualizer.draw_roi]: the two corners given to [cv2.rectangle], which is
    filled and blended over the frame. *)
Definition draw_roi (frame_width frame_height : Z) : (Z * Z) * (Z * Z) :=
  let grid_width := frame_width / GRID_COLS in
  let grid_height := frame_height / GRID_ROWS in
  let roi_top := frame_height - grid_height in
  let roi_bottom := frame_height in
  let roi_left := grid_width in
  let roi_right := 3 * grid_width in
  ((roi_left, roi_top), (roi_right, roi_bottom)).

(** Truth value of the optional [class_names] argument: [None] and the empty
    dictionary are false. *)
Definition truthy_dict (class_names : option (gmap Z string)) : bool :=
  match class_names with
  | Some names => negb (bool_decide (names = ∅))
  | None => false
  end.

(** [class_names[class_id] if class_names else f"class_{class_id}"] *)
Definition label_name (class_names : option (gmap Z string)) (class_id : Z) : res string :=
  match class_names with
  | Some names =>
      if truthy_dict class_names then dict_getitem names class_id
      else Ok ("class_" ++ pretty class_id)%string
  | None => Ok ("class_" ++ pretty class_id)%string
  end.

Section DrawDetections.
(** Python's [f"{value:.2f}"] and [cv2.getTextSize(label, ...)[0]], the width
  and height of a label. *)
Variables (format_2f : npfloat -> string) (getTextSize : string -> Z * Z).
Variables (depth_map : option ndarray) (class_names : option (gmap Z string)).

(** [for box in boxes: ...] of [draw_detections], threading the calls made on
  [annotated_frame] so far. *)
Fixpoint draw_boxes_loop (bs : list Box) (calls : list DrawCall) : res (list DrawCall) :=
match bs with
| [] => Ok calls
| box :: rest =>
    let '(x1, y1, x2, y2) := xyxy box in
    let confidence := conf box in
    let class_id := cls box in
    do class_name <- label_name class_names class_id ;
    if road_relevant confidence class_id then
      do distance_info <-
        match depth_map with
        | Some dm =>
            let center_x := py_int ((x1 + x2) / 2) in
            let center_y := py_int ((y1 + y2) / 2) in
            do depth_values <- sample_depth_values dm center_x center_y 5 ;
            let median_depth := np_median depth_values in
            if np_gt median_depth CLOSE_DEPTH_THRESHOLD
            then Ok (" | Close (" ++ format_2f median_depth ++ ")")%string
            else Ok (" | Normal (" ++ format_2f median_depth ++ ")")%string
        | None => Ok ""%string
        end ;
      let color :=
        if str_in class_name ["truck"; "bus"]%string then Colors.truck_bus
        else if str_in class_name ["motorcycle"]%string then Colors.motorcycle
        else if str_in class_name ["person"]%string then Colors.person
        else Colors.default in
      let label :=
        (class_name ++ ": " ++ format_2f (Fin confidence) ++ distance_info)%string in
      let label_size := getTextSize label in
      draw_boxes_loop rest
        (calls ++
         [ rectangle (py_int x1, py_int y1) (py_int x2, py_int y2) color 2;
           rectangle (py_int x1, py_int y1 - snd label_size - 10)
                     (py_int x1 + fst label_size, py_int y1) color (-1);
           putText label (py_int x1, py_int y1 - 5) (5 # 10) (0, 0, 0) 2 ])
    else draw_boxes_loop rest calls
end.

(** [for result in results: ...] of [draw_detections]. *)
Fixpoint draw_results_loop (results : list Result) (calls : list DrawCall)
: res (list DrawCall) :=
match results with
| [] => Ok calls
| result :: rest =>
    match boxes result with
    | Some bs =>
        do calls' <- draw_boxes_loop bs calls ;
        draw_results_loop rest calls'
    | None => draw_results_loop rest calls
    end
end.

(** [Visualizer.draw_detections]: the calls made on the copy of the frame that
  the method returns. *)
Definition draw_detections (results : list Result) : res (list DrawCall) :=
draw_results_loop results [].
End DrawDetections.

End Visualizer.

(** ** utils/warnings.py: the collision alert box *)
Module AlertBox.

(** The rectangle [(rect_left, rect_top), (rect_right, rect_bottom)] that
    [WarningSystem.draw_collision_alert] fills, borders and writes the alert
    text into, for a text of size [text_size] as [cv2.getTextSize] gives it. *)
Definition draw_collision_alert (text_size : Z * Z) (frame_width frame_height : Z)
  : (Z * Z) * (Z * Z) :=
  let text_x := (frame_width - fst text_size) / 2 in
  let text_y := (frame_height + snd text_size) / 2 in
  let padding := 20 in
  let rect_top := text_y - snd text_size - padding in
  let rect_bottom := text_y + padding in
  let rect_left := text_x - padding in
  let rect_right := text_x + fst text_size + padding in
  ((rect_left, rect_top), (rect_right, rect_bottom)).

End AlertBox.

(** ** models/detector.py: the frame loop *)
Module Session.

(** [_process_frame(frame, use_depth)]: without [use_depth] the depth model is
    not run and [depth_map] stays [None]. *)
Definition _process_frame (self : RoadObjectDetector.t)
    (frame : RoadObjectDetector.Frame) (use_depth : bool) : res RoadObjectDetector.t :=
  RoadObjectDetector.process_frame self
    (if use_depth then frame
     else {| RoadObjectDetector.frame_height := RoadObjectDetector.frame_height frame;
             RoadObjectDetector.frame_width := RoadObjectDetector.frame_width frame;
             RoadObjectDetector.results := RoadObjectDetector.results frame;
             RoadObjectDetector.depth_map := None |}).

(** The [while True] loop of [detect_from_video] and of [detect_from_camera],
    on the frames read until the capture ends or the user quits:
    [_process_frame] on each, in order.  An exception leaves the loop. *)
Fixpoint detect_loop (self : RoadObjectDetector.t)
    (frames : list RoadObjectDetector.Frame) (use_depth : bool) : res RoadObjectDetector.t :=
  match frames with
  | [] => Ok self
  | frame :: rest =>
      do self' <- _process_frame self frame use_depth ;
      detect_loop self' rest use_depth
  end.

End Session.

(** ** Notions used to state the properties *)

(** The array has at least one row and one column. *)
Definition nonempty (a : ndarray) : Prop :=
  (1 <= shape0 a)%nat /\ (1 <= shape1 a)%nat.

(** [(y, x)] is a position of the array. *)
Definition in_bounds (a : ndarray) (yx : Z * Z) : Prop :=
  0 <= fst yx <= Z.of_nat (shape0 a) - 1 /\ 0 <= snd yx <= Z.of_nat (shape1 a) - 1.

(** The value stored at a position. *)
Definition value_at (a : ndarray) (yx : Z * Z) : Q := item a (fst yx) (snd yx).

(** Every detection's class id is a key of the name table. *)
Definition known_classes (class_names : gmap Z string) (results : list Result) : Prop :=
  forall box, In box (detections results) -> is_Some (class_names !! cls box).

(** A depth map that can be sampled, or no depth map at all. *)
Definition usable (depth_map : option ndarray) : Prop :=
  match depth_map with
  | Some dm => nonempty dm
  | None => True
  end.

(** The pixel at the centre of a box:
    [int((x1 + x2) / 2)] and [int((y1 + y2) / 2)]. *)
Definition center_x (box : Box) : Z :=
  let '(x1, _, x2, _) := xyxy box in py_int ((x1 + x2) / 2).
Definition center_y (box : Box) : Z :=
  let '(_, y1, _, y2) := xyxy box in py_int ((y1 + y2) / 2).

(** The box intersects the ROI rectangle of a frame of the given size. *)
Definition intersects_roi (box : Box) (frame_width frame_height : Z) : bool :=
  let '(x1, y1, x2, y2) := xyxy box in
  ROIManager.is_in_collision_roi x1 y1 x2 y2 frame_width frame_height.

(** The box is road-relevant and confidence-qualifying. *)
Definition qualifies (box : Box) : Prop :=
  (CONFIDENCE_THRESHOLD < conf box)%Q /\ In (cls box) (dict_values ROAD_CLASSES).

(** The median of the depth samples around the centre of the box exists and is
    strictly greater than the threshold. *)
Definition median_depth_exceeds (dm : ndarray) (box : Box) (sample_size threshold : Z)
  : Prop :=
  exists m : Q,
    get_depth_at_location dm (center_x box) (center_y box) sample_size = Ok (Fin m)
    /\ (inject_Z threshold < m)%Q.


(** Decidable forms of the above, for an optional depth map. *)
Definition qualifies_b (box : Box) : bool := road_relevant (conf box) (cls box).

Definition median_depth_exceeds_b (depth_map : option ndarray) (box : Box)
    (sample_size threshold : Z) : bool :=
  match depth_map with
  | Some dm =>
      match get_depth_at_location dm (center_x box) (center_y box) sample_size with
      | Ok m => np_gt m threshold
      | Raise _ => false
      end
  | None => false
  end.

Definition collision_condition_b (depth_map : option ndarray)
    (frame_width frame_height : Z) (box : Box) : bool :=
  qualifies_b box
  && intersects_roi box frame_width frame_height
  && median_depth_exceeds_b depth_map box DEPTH_COLLISION_SAMPLE_SIZE COLLISION_THRESHOLD.

(** The detection is close: it qualifies and its median depth (radius 5)
    exceeds [CLOSE_DEPTH_THRESHOLD]. *)
Definition close_b (depth_map : option ndarray) (box : Box) : bool :=
  qualifies_b box && median_depth_exceeds_b depth_map box 5 CLOSE_DEPTH_THRESHOLD.

(** The centre [(x1 + x2) / 2] of the box lies in the left half of the frame. *)
Definition on_left (frame_width : Z) (box : Box) : bool :=
  let '(x1, _, x2, _) := xyxy box in
  Qltb ((x1 + x2) / 2) (inject_Z frame_width / 2).

(** The class name of a detection. *)
Definition name_of (class_names : gmap Z string) (box : Box) : string :=
  default ""%string (class_names !! cls box).

(** The sides of the ROI rectangle, as [get_roi_coordinates] returns them. *)
Definition roi_left (w h : Z) : Z :=
  let '(l, _, _, _) := ROIManager.get_roi_coordinates w h in l.
Definition roi_top (w h : Z) : Z :=
  let '(_, t, _, _) := ROIManager.get_roi_coordinates w h in t.
Definition roi_right (w h : Z) : Z :=
  let '(_, _, r, _) := ROIManager.get_roi_coordinates w h in r.
Definition roi_bottom (w h : Z) : Z :=
  let '(_, _, _, b) := ROIManager.get_roi_coordinates w h in b.

(** The closed intervals [[a, b]] and [[c, d]] share a point. *)
Definition intervals_overlap (a b c d : Q) : Prop :=
  exists t : Q, (a <= t /\ t <= b /\ c <= t /\ t <= d)%Q.

(** One persistence counter of the warning system, seen through the methods
    that read and write it.  [update signal ws ws'] holds when a call that
    feeds [signal] to the counter takes the state [ws] to [ws']. *)
Record Counter : Type := {
  count : WarningSystem.t -> Z;
  threshold : WarningSystem.t -> Z;
  should_fire : WarningSystem.t -> bool;
  update : bool -> WarningSystem.t -> WarningSystem.t -> Prop
}.

(** The collision counter: [update_collision_persistence] and
    [should_show_collision_alert]. *)
Definition collision_counter : Counter := {|
  count := WarningSystem.collision_alert_frames;
  threshold := WarningSystem.collision_alert_threshold;
  should_fire := WarningSystem.should_show_collision_alert;
  update signal ws ws' :=
    ws' = WarningSystem.update_collision_persistence ws signal
|}.

(** The left counter: [update_warning_persistence], whose signal is the truth
    value of the left list, and the left condition of [draw_warnings]. *)
Definition left_counter : Counter := {|
  count := WarningSystem.left_warning_frames;
  threshold := WarningSystem.warning_threshold;
  should_fire := WarningSystem.shows_left_warning;
  update signal ws ws' :=
    exists l r, WarningSystem.truthy l = signal
                /\ ws' = WarningSystem.update_warning_persistence ws l r
|}.

(** The right counter, likewise. *)
Definition right_counter : Counter := {|
  count := WarningSystem.right_warning_frames;
  threshold := WarningSystem.warning_threshold;
  should_fire := WarningSystem.shows_right_warning;
  update signal ws ws' :=
    exists l r, WarningSystem.truthy r = signal
                /\ ws' = WarningSystem.update_warning_persistence ws l r
|}.

(** A sequence of updates of one counter, one per signal. *)
Inductive updates (c : Counter) : list bool -> WarningSystem.t -> WarningSystem.t -> Prop :=
| updates_nil ws : updates c [] ws ws
| updates_cons signal signals ws ws' ws'' :
    update c signal ws ws' ->
    updates c signals ws' ws'' ->
    updates c (signal :: signals) ws ws''.

(** The persistence state machine as the specification words it, for a
    counter of threshold [n]. *)
Definition persistence_counter (c : Counter) (n : Z) : Prop :=
  (* initial state *)
  count c WarningSystem.init = 0
  (* [update(true)] and [update(false)] are always possible and set the count *)
  /\ (forall signal ws, exists ws', update c signal ws ws')
  /\ (forall ws ws', update c true ws ws' -> count c ws' = count c ws + 1)
  /\ (forall ws ws', update c false ws ws' -> count c ws' = 0)
  (* [should_fire()] *)
  /\ (forall ws, should_fire c ws = true <-> threshold c ws <= count c ws)
  (* [k] consecutive positive updates from 0 *)
  /\ (forall ws ws' k,
        threshold c ws = n -> count c ws = 0 ->
        updates c (repeat true k) ws ws' ->
        (should_fire c ws' = true <-> n <= Z.of_nat k))
  (* one negative update, at any point, and the fresh positive updates after it *)
  /\ (forall ws ws1 ws2 k,
        threshold c ws = n ->
        update c false ws ws1 ->
        count c ws1 = 0
        /\ should_fire c ws1 = false
        /\ (updates c (repeat true k) ws1 ws2 ->
            (should_fire c ws2 = true <-> n <= Z.of_nat k))).

(** [results'] is [results] with the detection [d] added to the boxes of one of
    its elements, at any position. *)
Inductive adds_detection (d : Box) : list Result -> list Result -> Prop :=
| adds_here bs1 bs2 rest :
    adds_detection d ({| boxes := Some (bs1 ++ bs2) |} :: rest)
                     ({| boxes := Some (bs1 ++ d :: bs2) |} :: rest)
| adds_later result results results' :
    adds_detection d results results' ->
    adds_detection d (result :: results) (result :: results').

(** ** Sample inputs *)

(** A 256 x 256 depth map of constant depth 700. *)
Definition depth_700 : ndarray :=
  {| shape0 := 256; shape1 := 256; item := fun _ _ => 700%Q |}.

(** A 256 x 256 depth map of constant depth 1500. *)
Definition depth_1500 : ndarray :=
  {| shape0 := 256; shape1 := 256; item := fun _ _ => 1500%Q |}.

(** A depth map without rows and columns, [np.empty((0, 0))]. *)
Definition depth_empty : ndarray :=
  {| shape0 := 0; shape1 := 0; item := fun _ _ => 0%Q |}.

(** A 2 x 3 depth map with pairwise different values. *)
Definition depth_2x3 : ndarray :=
  {| shape0 := 2; shape1 := 3; item := fun y x => inject_Z (10 * y + x) |}.

(** A car of confidence 0.9 inside the ROI of an 800 x 600 frame. *)
Definition car_in_roi : Box :=
  {| xyxy := (300, 450, 500, 550)%Q; conf := 9 # 10; cls := 2 |}.

(** A car of confidence 0.9 in the left half of an 800 x 600 frame. *)
Definition car_on_left : Box :=
  {| xyxy := (100, 450, 300, 550)%Q; conf := 9 # 10; cls := 2 |}.

(** A detection of confidence 0.4 and of a class id that is neither a road
    class nor a key of the name table below, inside the ROI. *)
Definition stray_box : Box :=
  {| xyxy := (300, 450, 500, 550)%Q; conf := 4 # 10; cls := 99 |}.

(** A traffic light (class 9, not a road class) of confidence 0.4 inside the ROI. *)
Definition traffic_light : Box :=
  {| xyxy := (300, 450, 500, 550)%Q; conf := 4 # 10; cls := 9 |}.

(** A name table with the two classes [car] and [traffic light]. *)
Definition two_names : gmap Z string :=
  {[ 2 := "car"%string; 9 := "traffic light"%string ]}.

(** An 800 x 600 frame in which the detector found that car. *)
Definition frame_with_car (dm : ndarray) : RoadObjectDetector.Frame :=
  {| RoadObjectDetector.frame_height := 600;
     RoadObjectDetector.frame_width := 800;
     RoadObjectDetector.results := [ {| boxes := Some [car_in_roi] |} ];
     RoadObjectDetector.depth_map := Some dm |}.

(** The same frame with the stray detection in front of the car. *)
Definition frame_with_stray_box : RoadObjectDetector.Frame :=
  {| RoadObjectDetector.frame_height := 600;
     RoadObjectDetector.frame_width := 800;
     RoadObjectDetector.results := [ {| boxes := Some [stray_box; car_in_roi] |} ];
     RoadObjectDetector.depth_map := Some depth_700 |}.

(** Every value of the array lies between [lo] and [hi]. *)
Definition values_between (a : ndarray) (lo hi : Q) : Prop :=
  forall yx, in_bounds a yx -> (lo <= value_at a yx /\ value_at a yx <= hi)%Q.

(** The point [(px, py)] lies in the closed rectangle with the given corners. *)
Definition in_rectangle (px py : Q) (left top right bottom : Q) : Prop :=
  (left <= px /\ px <= right /\ top <= py /\ py <= bottom)%Q.

(** What one frame feeds to the three counters: the two close lists and the
    collision flag. *)
Definition frame_update (ws : WarningSystem.t)
    (input : list string * list string * bool) : WarningSystem.t :=
  WarningSystem.update_collision_persistence
    (WarningSystem.update_warning_persistence ws (fst (fst input)) (snd (fst input)))
    (snd input).

(** The signals of the three counters in such an input. *)
Definition left_signal (input : list string * list string * bool) : bool :=
  WarningSystem.truthy (fst (fst input)).
Definition right_signal (input : list string * list string * bool) : bool :=
  WarningSystem.truthy (snd (fst input)).
Definition collision_signal (input : list string * list string * bool) : bool :=
  snd input.

(** The list of signals ends with [n] positive ones. *)
Definition ends_with_positives (signals : list bool) (n : nat) : Prop :=
  exists earlier, signals = earlier ++ repeat true n.

(** The decisions taken on one frame that can be processed: the names of the
    close detections on each side and the collision flag. *)
Definition frame_input (class_names : gmap Z string) (frame : RoadObjectDetector.Frame)
  : list string * list string * bool :=
  (map (name_of class_names)
       (List.filter
          (fun box => close_b (RoadObjectDetector.depth_map frame) box
                      && on_left (Z.of_nat (RoadObjectDetector.frame_width frame)) box)
          (detections (RoadObjectDetector.results frame))),
   map (name_of class_names)
       (List.filter
          (fun box => close_b (RoadObjectDetector.depth_map frame) box
                      && negb (on_left (Z.of_nat (RoadObjectDetector.frame_width frame))
                                       box))
          (detections (RoadObjectDetector.results frame))),
   existsb (collision_condition_b
              (RoadObjectDetector.depth_map frame)
              (Z.of_nat (RoadObjectDetector.frame_width frame))
              (Z.of_nat (RoadObjectDetector.frame_height frame)))
           (detections (RoadObjectDetector.results frame))).

(** A frame the decision pipeline can process with the given name table. *)
Definition processable (class_names : gmap Z string) (frame : RoadObjectDetector.Frame)
  : Prop :=
  usable (RoadObjectDetector.depth_map frame)
  /\ known_classes class_names (RoadObjectDetector.results frame).

(** The count of a counter fed with the signals, from [c0]. *)
Definition run_count (signals : list bool) (c0 : Z) : Z :=
  fold_left (fun c (s : bool) => if s then c + 1 else 0) signals c0.


(** The corner points [(int(x1), int(y1))] and [(int(x2), int(y2))] of the
    bounding box drawn for a detection. *)
Definition corners (box : Box) : (Z * Z) * (Z * Z) :=
  let '(x1, y1, x2, y2) := xyxy box in
  ((py_int x1, py_int y1), (py_int x2, py_int y2)).

(** The bounding boxes among drawing calls: the rectangles of thickness 2
    (label backgrounds are filled, thickness -1). *)
Fixpoint bounding_boxes (calls : list DrawCall) : list ((Z * Z) * (Z * Z)) :=
  match calls with
  | [] => []
  | rectangle pt1 pt2 _ 2 :: rest => (pt1, pt2) :: bounding_boxes rest
  | _ :: rest => bounding_boxes rest
  end.

(** The colours of the rectangles among drawing calls. *)
Fixpoint rectangle_colors (calls : list DrawCall) : list Color :=
  match calls with
  | [] => []
  | rectangle _ _ color _ :: rest => color :: rectangle_colors rest
  | _ :: rest => rectangle_colors rest
  end.

(** The array [b] has the shape of [a] and at every position a value at least
    as large: the same scene, nowhere farther. *)
Definition nowhere_farther (a b : ndarray) : Prop :=
  shape0 b = shape0 a /\ shape1 b = shape1 a
  /\ forall yx, in_bounds a yx -> (value_at a yx <= value_at b yx)%Q.



(** ** numpy's median: the sort behind it *)

Lemma insert_sorted_permutation (x : Q) (l : list Q) :
  Permutation (x :: l) (insert_sorted x l).
Proof.
  induction l as [|y l IH]; simpl.
  - apply Permutation_refl.
  - destruct (Qle_bool x y).
    + apply Permutation_refl.
    + apply perm_trans with (y :: x :: l); [apply perm_swap|].
      apply perm_skip. exact IH.
Qed.

Lemma np_sort_permutation (l : list Q) : Permutation l (np_sort l).
Proof.
  induction l as [|x l IH]; simpl.
  - apply perm_nil.
  - apply perm_trans with (x :: np_sort l).
    + apply perm_skip. exact IH.
    + apply insert_sorted_permutation.
Qed.

Lemma np_sort_length (l : list Q) : length (np_sort l) = length l.
Proof. symmetry. apply Permutation_length, np_sort_permutation. Qed.

Lemma insert_sorted_head (x y : Q) (l : list Q) :
  (y <= x)%Q -> HdRel Qle y l -> HdRel Qle y (insert_sorted x l).
Proof.
  intros Hyx Hhd. destruct l as [|z l]; simpl.
  - constructor. exact Hyx.
  - destruct (Qle_bool x z); constructor.
    + exact Hyx.
    + inversion Hhd; assumption.
Qed.

Lemma insert_sorted_sorted (x : Q) (l : list Q) :
  Sorted Qle l -> Sorted Qle (insert_sorted x l).
Proof.
  induction l as [|y l IH]; intros Hs; simpl.
  - repeat constructor.
  - destruct (Qle_bool x y) eqn:Exy.
    + constructor; [exact Hs|]. constructor. apply Qle_bool_iff. exact Exy.
    + inversion Hs as [|? ? Hl Hhd]; subst. constructor.
      * apply IH. exact Hl.
      * apply insert_sorted_head; [|exact Hhd].
        apply Qlt_le_weak, Qnot_le_lt. intros Hle.
        apply Qle_bool_iff in Hle. congruence.
Qed.

Lemma np_sort_sorted (l : list Q) : Sorted Qle (np_sort l).
Proof.
  induction l as [|x l IH]; simpl.
  - constructor.
  - apply insert_sorted_sorted. exact IH.
Qed.

(** For an odd number of values the median is one of them. *)
Lemma np_median_odd (values : list Q) :
  Nat.even (length values) = false ->
  exists m, np_median values = Fin m /\ In m values.
Proof.
  intros Hodd. destruct values as [|v values]; [discriminate|].
  unfold np_median. rewrite Hodd.
  eexists. split; [reflexivity|].
  apply (Permutation_in _ (Permutation_sym (np_sort_permutation (v :: values)))).
  apply nth_In. rewrite np_sort_length.
  apply Nat.div_lt; simpl; lia.
Qed.

(** * Properties *)

(** ** Comparisons and membership *)

Lemma Qgtb_true_iff (a b : Q) : Qgtb a b = true <-> (b < a)%Q.
Proof.
  unfold Qgtb. rewrite negb_true_iff, <- not_true_iff_false, Qle_bool_iff.
  split; [apply Qnot_le_lt | apply Qlt_not_le].
Qed.

Lemma Qltb_true_iff (a b : Q) : Qltb a b = true <-> (a < b)%Q.
Proof. unfold Qltb. apply (Qgtb_true_iff b a). Qed.

Lemma np_gt_true_iff (m : npfloat) (threshold : Z) :
  np_gt m threshold = true <-> exists q, m = Fin q /\ (inject_Z threshold < q)%Q.
Proof.
  destruct m as [q|]; simpl.
  - rewrite Qgtb_true_iff. split.
    + intros H. exists q. split; [reflexivity | exact H].
    + intros [q' [E H]]. inversion E; subst. exact H.
  - split; [discriminate | intros [q [E _]]; discriminate].
Qed.

Lemma in_road_classes_iff (class_id : Z) :
  in_road_classes class_id = true <-> In class_id (dict_values ROAD_CLASSES).
Proof.
  unfold in_road_classes. rewrite existsb_exists. split.
  - intros [x [Hin Heq]]. apply Z.eqb_eq in Heq. subst. exact Hin.
  - intros Hin. exists class_id. split; [exact Hin | apply Z.eqb_refl].
Qed.

Lemma dict_getitem_known (class_names : gmap Z string) (class_id : Z) :
  is_Some (class_names !! class_id) ->
  dict_getitem class_names class_id = Ok (default ""%string (class_names !! class_id)).
Proof. intros [name E]. unfold dict_getitem. rewrite E. reflexivity. Qed.

Lemma dict_getitem_unknown (class_names : gmap Z string) (class_id : Z) :
  class_names !! class_id = None ->
  dict_getitem class_names class_id = Raise (KeyError class_id).
Proof. intros E. unfold dict_getitem. rewrite E. reflexivity. Qed.

(** ** Depth sampling *)

Lemma for_collect_ok {A B : Type} (body : A -> res B) (f : A -> B) (xs : list A) :
  (forall x, In x xs -> body x = Ok (f x)) ->
  for_collect body xs = Ok (map f xs).
Proof.
  induction xs as [|x xs IH]; intros H; simpl.
  - reflexivity.
  - rewrite (H x (or_introl eq_refl)). simpl.
    rewrite IH by (intros y Hy; apply H; right; exact Hy).
    reflexivity.
Qed.

Lemma norm_index_in_range (dim : nat) (i : Z) :
  0 <= i <= Z.of_nat dim - 1 -> norm_index dim i = Ok i.
Proof.
  intros H. unfold norm_index.
  destruct (Z.leb_spec 0 i); [|lia].
  destruct (Z.ltb_spec i (Z.of_nat dim)); [|lia].
  reflexivity.
Qed.

Lemma norm_index_empty_axis (i : Z) : norm_index 0 i = Raise IndexError.
Proof.
  unfold norm_index. change (Z.of_nat 0) with 0.
  destruct (Z.leb_spec 0 i); destruct (Z.ltb_spec i 0);
    destruct (Z.leb_spec (- 0) i); simpl; try lia; reflexivity.
Qed.

Lemma norm_index_raises (dim : nat) (i : Z) (e : exn) :
  norm_index dim i = Raise e -> e = IndexError.
Proof.
  unfold norm_index.
  destruct ((0 <=? i) && (i <? Z.of_nat dim)); [discriminate|].
  destruct ((- Z.of_nat dim <=? i) && (i <? 0)); [discriminate|].
  intros E. inversion E. reflexivity.
Qed.

Lemma getitem_in_bounds (a : ndarray) (yx : Z * Z) :
  in_bounds a yx -> getitem a (fst yx) (snd yx) = Ok (value_at a yx).
Proof.
  intros [Hy Hx]. unfold getitem.
  rewrite (norm_index_in_range _ _ Hy). simpl.
  rewrite (norm_index_in_range _ _ Hx). reflexivity.
Qed.

Lemma getitem_empty (a : ndarray) (y x : Z) :
  ~ nonempty a -> getitem a y x = Raise IndexError.
Proof.
  intros Hne. unfold getitem.
  destruct (shape0 a) as [|h] eqn:E0.
  - rewrite norm_index_empty_axis. reflexivity.
  - destruct (shape1 a) as [|w] eqn:E1.
    + rewrite norm_index_empty_axis.
      destruct (norm_index (S h) y) as [i|e] eqn:En; [reflexivity|].
      apply norm_index_raises in En. subst e. reflexivity.
    + exfalso. apply Hne. unfold nonempty. rewrite E0, E1. lia.
Qed.

Lemma sample_index_in_bounds (a : ndarray) (center_x center_y dx dy : Z) :
  nonempty a -> in_bounds a (sample_index a center_x center_y dx dy).
Proof. intros [H0 H1]. unfold in_bounds, sample_index. simpl. lia. Qed.

Lemma sample_indices_in_bounds (a : ndarray) (center_x center_y sample_size : Z) :
  nonempty a ->
  Forall (in_bounds a) (sample_indices a center_x center_y sample_size).
Proof.
  intros Hne. apply List.Forall_forall. intros yx Hin.
  unfold sample_indices in Hin. apply in_flat_map in Hin.
  destruct Hin as [dx [_ Hin]]. apply in_map_iff in Hin.
  destruct Hin as [dy [<- _]]. apply sample_index_in_bounds. exact Hne.
Qed.

Lemma sample_depth_values_nonempty (a : ndarray) (center_x center_y sample_size : Z) :
  nonempty a ->
  sample_depth_values a center_x center_y sample_size
  = Ok (map (value_at a) (sample_indices a center_x center_y sample_size)).
Proof.
  intros Hne. unfold sample_depth_values. apply for_collect_ok.
  intros [y x] Hin.
  apply (getitem_in_bounds a (y, x)).
  pose proof (sample_indices_in_bounds a center_x center_y sample_size Hne) as Hall.
  rewrite List.Forall_forall in Hall. apply Hall. exact Hin.
Qed.



(** ** ROI geometry *)

(** Claim C5.  ROI geometry: for every frame width [w] and height [h],
    [get_roi_coordinates w h] is [(cell_w, h - cell_h, 3 * cell_w, h)] with
    [cell_w = w // GRID_COLS] and [cell_h = h // GRID_ROWS], the floor
    divisions ([GRID_COLS * cell_w <= w < GRID_COLS * cell_w + GRID_COLS],
    likewise for the rows); with [GRID_COLS = 4] and [GRID_ROWS = 3] the frame
    800 x 600 gives exactly [(200, 400, 600, 600)]. *)
Theorem roi_geometry (w h : Z) :
  ROIManager.get_roi_coordinates w h
  = (w / GRID_COLS, h - h / GRID_ROWS, 3 * (w / GRID_COLS), h)
  /\ (GRID_COLS * (w / GRID_COLS) <= w < GRID_COLS * (w / GRID_COLS) + GRID_COLS)
  /\ (GRID_ROWS * (h / GRID_ROWS) <= h < GRID_ROWS * (h / GRID_ROWS) + GRID_ROWS)
  /\ (GRID_COLS = 4 /\ GRID_ROWS = 3
      /\ ROIManager.get_roi_coordinates 800 600 = (200, 400, 600, 600)).
Proof.
  split; [reflexivity|].
  unfold GRID_COLS, GRID_ROWS.
  repeat split; try reflexivity.
  - apply Z.mul_div_le. lia.
  - pose proof (Z.mod_pos_bound w 4 ltac:(lia)) as Hm.
    pose proof (Z.div_mod w 4 ltac:(lia)). lia.
  - apply Z.mul_div_le. lia.
  - pose proof (Z.mod_pos_bound h 3 ltac:(lia)) as Hm.
    pose proof (Z.div_mod h 3 ltac:(lia)). lia.
Qed.

Lemma roi_sides_ordered (w h : nat) :
  roi_left (Z.of_nat w) (Z.of_nat h) <= roi_right (Z.of_nat w) (Z.of_nat h)
  /\ roi_top (Z.of_nat w) (Z.of_nat h) <= roi_bottom (Z.of_nat w) (Z.of_nat h).
Proof.
  unfold roi_left, roi_right, roi_top, roi_bottom. simpl.
  unfold GRID_COLS, GRID_ROWS.
  pose proof (Z.div_pos (Z.of_nat w) 4 ltac:(lia) ltac:(lia)).
  pose proof (Z.div_pos (Z.of_nat h) 3 ltac:(lia) ltac:(lia)).
  lia.
Qed.

Lemma is_in_collision_roi_true_iff (x1 y1 x2 y2 : Q) (w h : Z) :
  ROIManager.is_in_collision_roi x1 y1 x2 y2 w h = true
  <-> (inject_Z (roi_left w h) <= x2 /\ x1 <= inject_Z (roi_right w h)
       /\ inject_Z (roi_top w h) <= y2 /\ y1 <= inject_Z (roi_bottom w h))%Q.
Proof.
  unfold ROIManager.is_in_collision_roi, roi_left, roi_right, roi_top, roi_bottom.
  simpl. unfold Qltb, Qgtb.
  rewrite negb_true_iff, !orb_false_iff, !negb_false_iff, !Qle_bool_iff.
  tauto.
Qed.

Lemma intervals_overlap_iff (a b c d : Q) :
  (a <= b)%Q -> (c <= d)%Q ->
  intervals_overlap a b c d <-> (c <= b /\ a <= d)%Q.
Proof.
  intros Hab Hcd. unfold intervals_overlap. split.
  - intros [t [H1 [H2 [H3 H4]]]]. split.
    + apply Qle_trans with t; assumption.
    + apply Qle_trans with t; assumption.
  - intros [Hcb Had].
    destruct (Qlt_le_dec a c) as [Hlt|Hle].
    + exists c. repeat split; try assumption.
      * apply Qlt_le_weak. exact Hlt.
      * apply Qle_refl.
    + exists a. repeat split; try assumption. apply Qle_refl.
Qed.

(** Claim C6.  ROI intersection test: for every box [(x1, y1, x2, y2)] with
    [x1 <= x2] and [y1 <= y2] and every frame size, [is_in_collision_roi] is
    true iff the box lies neither entirely left of, right of, above nor below
    the ROI rectangle, that is iff the closed intervals [[x1, x2]] and
    [[roi_left, roi_right]] overlap and [[y1, y2]] and [[roi_top, roi_bottom]]
    overlap; at 800 x 600 the box [(200, 400, 300, 500)] intersects and the box
    [(50, 100, 150, 200)] does not. *)
Theorem roi_intersection_test (x1 y1 x2 y2 : Q) (w h : nat) :
  (x1 <= x2)%Q -> (y1 <= y2)%Q ->
  (ROIManager.is_in_collision_roi x1 y1 x2 y2 (Z.of_nat w) (Z.of_nat h) = true
   <-> ~ ((x2 < inject_Z (roi_left (Z.of_nat w) (Z.of_nat h)))%Q
          \/ (inject_Z (roi_right (Z.of_nat w) (Z.of_nat h)) < x1)%Q
          \/ (y2 < inject_Z (roi_top (Z.of_nat w) (Z.of_nat h)))%Q
          \/ (inject_Z (roi_bottom (Z.of_nat w) (Z.of_nat h)) < y1)%Q))
  /\ (ROIManager.is_in_collision_roi x1 y1 x2 y2 (Z.of_nat w) (Z.of_nat h) = true
      <-> intervals_overlap x1 x2
            (inject_Z (roi_left (Z.of_nat w) (Z.of_nat h)))
            (inject_Z (roi_right (Z.of_nat w) (Z.of_nat h)))
          /\ intervals_overlap y1 y2
               (inject_Z (roi_top (Z.of_nat w) (Z.of_nat h)))
               (inject_Z (roi_bottom (Z.of_nat w) (Z.of_nat h))))
  /\ ROIManager.is_in_collision_roi 200 400 300 500 800 600 = true
  /\ ROIManager.is_in_collision_roi 50 100 150 200 800 600 = false.
Proof.
  intros Hx Hy.
  destruct (roi_sides_ordered w h) as [Hlr Htb].
  rewrite Zle_Qle in Hlr, Htb.
  split; [|split; [|split; reflexivity]].
  - rewrite is_in_collision_roi_true_iff. split.
    + intros [H1 [H2 [H3 H4]]] [H|[H|[H|H]]];
        eapply Qlt_not_le; eassumption.
    + intros Hn. repeat split; apply Qnot_lt_le; intros H; apply Hn; tauto.
  - rewrite is_in_collision_roi_true_iff.
    rewrite (intervals_overlap_iff _ _ _ _ Hx Hlr).
    rewrite (intervals_overlap_iff _ _ _ _ Hy Htb).
    tauto.
Qed.

Lemma roi_intersection_test_witness :
  ROIManager.is_in_collision_roi (250 # 1) (350 # 1) (350 # 1) (450 # 1) 800 600 = true
  <-> intervals_overlap (250 # 1) (350 # 1) 200 600
      /\ intervals_overlap (350 # 1) (450 # 1) 400 600.
Proof.
  apply (roi_intersection_test (250 # 1) (350 # 1) (350 # 1) (450 # 1) 800%nat 600%nat);
    unfold Qle; simpl; lia.
Defined.

(** ** Persistence counters *)

Lemma should_show_collision_alert_iff (ws : WarningSystem.t) :
  WarningSystem.should_show_collision_alert ws = true
  <-> WarningSystem.collision_alert_threshold ws <= WarningSystem.collision_alert_frames ws.
Proof. unfold WarningSystem.should_show_collision_alert. rewrite Z.geb_le. reflexivity. Qed.

Lemma update_collision_persistence_spec (ws : WarningSystem.t) (signal : bool) :
  let ws' := WarningSystem.update_collision_persistence ws signal in
  WarningSystem.collision_alert_frames ws'
  = (if signal then WarningSystem.collision_alert_frames ws + 1 else 0)
  /\ WarningSystem.collision_alert_threshold ws' = WarningSystem.collision_alert_threshold ws
  /\ WarningSystem.left_warning_frames ws' = WarningSystem.left_warning_frames ws
  /\ WarningSystem.right_warning_frames ws' = WarningSystem.right_warning_frames ws
  /\ WarningSystem.warning_threshold ws' = WarningSystem.warning_threshold ws.
Proof. destruct signal; repeat split. Qed.

Lemma update_warning_persistence_spec (ws : WarningSystem.t) (l r : list string) :
  let ws' := WarningSystem.update_warning_persistence ws l r in
  WarningSystem.left_warning_frames ws'
  = (if WarningSystem.truthy l then WarningSystem.left_warning_frames ws + 1 else 0)
  /\ WarningSystem.right_warning_frames ws'
     = (if WarningSystem.truthy r then WarningSystem.right_warning_frames ws + 1 else 0)
  /\ WarningSystem.warning_threshold ws' = WarningSystem.warning_threshold ws
  /\ WarningSystem.collision_alert_frames ws' = WarningSystem.collision_alert_frames ws
  /\ WarningSystem.collision_alert_threshold ws'
     = WarningSystem.collision_alert_threshold ws.
Proof.
  unfold WarningSystem.update_warning_persistence.
  destruct (WarningSystem.truthy l), (WarningSystem.truthy r); repeat split.
Qed.

Section Debounce.
Variable c : Counter.
Hypothesis update_total : forall signal ws, exists ws', update c signal ws ws'.
Hypothesis update_true : forall ws ws', update c true ws ws' -> count c ws' = count c ws + 1.
Hypothesis update_false : forall ws ws', update c false ws ws' -> count c ws' = 0.
Hypothesis update_threshold :
  forall signal ws ws', update c signal ws ws' -> threshold c ws' = threshold c ws.
Hypothesis fire : forall ws, should_fire c ws = true <-> threshold c ws <= count c ws.

Lemma updates_positive (k : nat) (ws ws' : WarningSystem.t) :
  updates c (repeat true k) ws ws' ->
  count c ws' = count c ws + Z.of_nat k /\ threshold c ws' = threshold c ws.
Proof.
  revert ws. induction k as [|k IH]; intros ws Hrun; simpl in Hrun.
  - inversion Hrun; subst. split; [lia | reflexivity].
  - inversion Hrun as [|? ? ? ws1 ? Hstep Hrest]; subst.
    destruct (IH _ Hrest) as [E1 E2].
    rewrite E1, E2, (update_true _ _ Hstep), (update_threshold _ _ _ Hstep).
    split; [lia | reflexivity].
Qed.

Lemma fires_after (n : Z) (k : nat) (ws ws' : WarningSystem.t) :
  threshold c ws = n -> count c ws = 0 ->
  updates c (repeat true k) ws ws' ->
  (should_fire c ws' = true <-> n <= Z.of_nat k).
Proof.
  intros Hn H0 Hrun. destruct (updates_positive _ _ _ Hrun) as [E1 E2].
  rewrite fire, E1, E2, Hn, H0. lia.
Qed.

Lemma debounce (n : Z) :
  0 < n -> count c WarningSystem.init = 0 -> persistence_counter c n.
Proof.
  intros Hpos Hinit. unfold persistence_counter.
  repeat match goal with |- _ /\ _ => split end;
    try assumption.
  - intros ws ws' k. apply fires_after.
  - intros ws ws1 ws2 k Hn Hstep.
    pose proof (update_false _ _ Hstep) as E0.
    pose proof (update_threshold _ _ _ Hstep) as Et.
    split; [exact E0|]. split.
    + apply not_true_iff_false. rewrite fire, E0, Et, Hn. lia.
    + apply fires_after; [rewrite Et; exact Hn | exact E0].
Qed.
End Debounce.

(** Claim C2.  Persistence state machine: each of the three counters of the
    warning system (left, right, collision) starts at 0; a positive update
    adds 1 to it and a negative update sets it to 0; it fires iff its count
    has reached its threshold.  Hence, for a counter of threshold 3 at count
    0, after [k] consecutive positive updates it fires iff [3 <= k]; one
    negative update in any state sets the count to 0 and stops the firing at
    once, and after it the counter fires again only with three fresh
    consecutive positive updates.  The left and right counters have threshold
    3 from the start; the same holds for the collision counter at its own
    initial threshold. *)
Theorem persistence_state_machine :
  persistence_counter left_counter 3
  /\ persistence_counter right_counter 3
  /\ persistence_counter collision_counter 3
  /\ WarningSystem.warning_threshold WarningSystem.init = 3
  /\ persistence_counter collision_counter
       (WarningSystem.collision_alert_threshold WarningSystem.init).
Proof.
  assert (Hcol : forall n, 0 < n -> persistence_counter collision_counter n).
  { intros n Hn. apply debounce; simpl; try lia; try reflexivity.
    - intros signal ws. eexists. reflexivity.
    - intros ws ws' ->. reflexivity.
    - intros ws ws' ->. reflexivity.
    - intros signal ws ws' ->. apply update_collision_persistence_spec.
    - apply should_show_collision_alert_iff. }
  split; [|split; [|split; [|split; [reflexivity|]]]];
    try (apply Hcol; reflexivity).
  - apply debounce; simpl; try lia; try reflexivity.
    + intros signal ws. exists (WarningSystem.update_warning_persistence ws
                                  (if signal then ["x"%string] else []) []).
      exists (if signal then ["x"%string] else []), []. destruct signal; split; reflexivity.
    + intros ws ws' [l [r [Hs ->]]].
      destruct (update_warning_persistence_spec ws l r) as [E _].
      rewrite E, Hs. reflexivity.
    + intros ws ws' [l [r [Hs ->]]].
      destruct (update_warning_persistence_spec ws l r) as [E _].
      rewrite E, Hs. reflexivity.
    + intros signal ws ws' [l [r [Hs ->]]].
      apply update_warning_persistence_spec.
    + intros ws. unfold WarningSystem.shows_left_warning. rewrite Z.geb_le. reflexivity.
  - apply debounce; simpl; try lia; try reflexivity.
    + intros signal ws. exists (WarningSystem.update_warning_persistence ws
                                  [] (if signal then ["x"%string] else [])).
      exists [], (if signal then ["x"%string] else []). destruct signal; split; reflexivity.
    + intros ws ws' [l [r [Hs ->]]].
      destruct (update_warning_persistence_spec ws l r) as [_ [E _]].
      rewrite E, Hs. reflexivity.
    + intros ws ws' [l [r [Hs ->]]].
      destruct (update_warning_persistence_spec ws l r) as [_ [E _]].
      rewrite E, Hs. reflexivity.
    + intros signal ws ws' [l [r [Hs ->]]].
      apply update_warning_persistence_spec.
    + intros ws. unfold WarningSystem.shows_right_warning. rewrite Z.geb_le. reflexivity.
Qed.

Lemma persistence_state_machine_witness :
  WarningSystem.shows_left_warning
    (WarningSystem.update_warning_persistence
       (WarningSystem.update_warning_persistence
          (WarningSystem.update_warning_persistence
             WarningSystem.init ["car"%string] [])
          ["car"%string] [])
       ["car"%string] [])
  = true.
Proof.
  destruct persistence_state_machine as [Hleft _].
  destruct Hleft as [_ [_ [_ [_ [_ [Hk _]]]]]].
  apply (Hk WarningSystem.init _ 3%nat); [reflexivity | reflexivity | | simpl; lia].
  repeat (eapply updates_cons;
          [exists ["car"%string], []; split; reflexivity|]).
  apply updates_nil.
Defined.

(** ** Detections and the two classification loops *)

Lemma qualifies_b_iff (box : Box) : qualifies_b box = true <-> qualifies box.
Proof.
  unfold qualifies_b, road_relevant, qualifies.
  rewrite andb_true_iff, Qgtb_true_iff, in_road_classes_iff. reflexivity.
Qed.

Lemma median_depth_exceeds_b_iff (dm : ndarray) (box : Box) (sample_size threshold : Z) :
  median_depth_exceeds_b (Some dm) box sample_size threshold = true
  <-> median_depth_exceeds dm box sample_size threshold.
Proof.
  unfold median_depth_exceeds_b, median_depth_exceeds.
  destruct (get_depth_at_location dm (center_x box) (center_y box) sample_size)
    as [m|e].
  - rewrite np_gt_true_iff. split.
    + intros [q [-> Hq]]. exists q. split; [reflexivity | exact Hq].
    + intros [q [E Hq]]. inversion E; subst. exists q. split; [reflexivity | exact Hq].
  - split; [discriminate | intros [q [E _]]; discriminate].
Qed.


Lemma close_b_iff (dm : ndarray) (box : Box) :
  close_b (Some dm) box = true
  <-> qualifies box /\ median_depth_exceeds dm box 5 CLOSE_DEPTH_THRESHOLD.
Proof.
  unfold close_b.
  rewrite andb_true_iff, qualifies_b_iff, median_depth_exceeds_b_iff. reflexivity.
Qed.

Lemma on_left_iff (frame_width : Z) (box : Box) :
  on_left frame_width box = true
  <-> let '(x1, _, x2, _) := xyxy box in
      ((x1 + x2) / 2 < inject_Z frame_width / 2)%Q.
Proof.
  unfold on_left. destruct (xyxy box) as [[[x1 y1] x2] y2].
  apply Qltb_true_iff.
Qed.

Lemma nonempty_dec (a : ndarray) : {nonempty a} + {~ nonempty a}.
Proof.
  unfold nonempty.
  destruct (shape0 a) as [|h]; [right; lia|].
  destruct (shape1 a) as [|w]; [right; lia|].
  left. lia.
Qed.

(** With the radius 5 of both callers the loop reads at least one pixel, so
    it raises on an array without rows or without columns. *)
Lemma sample_depth_values_empty (a : ndarray) (center_x center_y : Z) :
  ~ nonempty a ->
  sample_depth_values a center_x center_y 5 = Raise IndexError.
Proof.
  intros Hne. unfold sample_depth_values, sample_indices.
  change (py_range (Z.opp 5) 5 2) with [-5; -3; -1; 1; 3].
  unfold sample_index. cbn [flat_map map app for_collect bind].
  rewrite (getitem_empty _ _ _ Hne). reflexivity.
Qed.


Lemma detections_cons_boxes (bs : list Box) (rest : list Result) :
  detections ({| boxes := Some bs |} :: rest) = bs ++ detections rest.
Proof. reflexivity. Qed.

Lemma detections_cons_none (rest : list Result) :
  detections ({| boxes := None |} :: rest) = detections rest.
Proof. reflexivity. Qed.

Lemma known_classes_cons_boxes (class_names : gmap Z string) (bs : list Box)
    (rest : list Result) :
  known_classes class_names ({| boxes := Some bs |} :: rest) ->
  (forall box, In box bs -> is_Some (class_names !! cls box))
  /\ known_classes class_names rest.
Proof.
  unfold known_classes, detections. simpl. intros H. split.
  - intros box Hin. apply H. apply in_or_app. left. exact Hin.
  - intros box Hin. apply H. apply in_or_app. right. exact Hin.
Qed.

Lemma known_classes_cons_none (class_names : gmap Z string) (rest : list Result) :
  known_classes class_names ({| boxes := None |} :: rest) ->
  known_classes class_names rest.
Proof. unfold known_classes, detections. simpl. intros H. exact H. Qed.

Section CollisionLoops.
Variables (depth_map : option ndarray) (frame_width frame_height : Z)
          (class_names : gmap Z string).

Let hit := collision_condition_b depth_map frame_width frame_height.

(** Under the two preconditions the inner loop ends, with the flag set iff
    it was set before or some box satisfies the collision condition. *)
Lemma collision_boxes_loop_total (bs : list Box) (collision_detected : bool) :
  usable depth_map ->
  (forall box, In box bs -> is_Some (class_names !! cls box)) ->
  ROIManager.collision_boxes_loop depth_map frame_width frame_height class_names
    bs collision_detected
  = Ok (existsb hit bs || collision_detected).
Proof.
  intros Hdm. induction bs as [|box bs IH]; intros Hknown; [reflexivity|].
  assert (Hrest : forall b, In b bs -> is_Some (class_names !! cls b))
    by (intros b Hb; apply Hknown; right; exact Hb).
  specialize (IH Hrest).
  simpl ROIManager.collision_boxes_loop. simpl existsb.
  unfold hit at 1, collision_condition_b, qualifies_b, intersects_roi,
    median_depth_exceeds_b, center_x, center_y, get_depth_at_location.
  destruct (xyxy box) as [[[x1 y1] x2] y2].
  rewrite (dict_getitem_known _ _ (Hknown box (or_introl eq_refl))).
  cbn [bind].
  destruct (road_relevant (conf box) (cls box)); [|exact IH].
  destruct (ROIManager.is_in_collision_roi x1 y1 x2 y2 frame_width frame_height);
    [|exact IH].
  destruct depth_map as [dm|]; [|exact IH].
  rewrite (sample_depth_values_nonempty dm _ _ _ Hdm). cbn [bind andb].
  destruct (np_gt _ COLLISION_THRESHOLD); [reflexivity | exact IH].
Qed.

(** Whatever the inputs, the inner loop sets the flag only on a box that
    satisfies the collision condition. *)
Lemma collision_boxes_loop_sound (bs : list Box) (collision_detected : bool) :
  ROIManager.collision_boxes_loop depth_map frame_width frame_height class_names
    bs collision_detected = Ok true ->
  collision_detected = true \/ existsb hit bs = true.
Proof.
  induction bs as [|box bs IH]; simpl ROIManager.collision_boxes_loop.
  - intros E. inversion E. left. reflexivity.
  - simpl existsb.
    unfold hit at 1, collision_condition_b, qualifies_b, intersects_roi,
      median_depth_exceeds_b, center_x, center_y, get_depth_at_location.
    destruct (xyxy box) as [[[x1 y1] x2] y2].
    destruct (dict_getitem class_names (cls box)) as [name|e]; [|discriminate].
    cbn [bind].
    destruct (road_relevant (conf box) (cls box)); [|exact IH].
    destruct (ROIManager.is_in_collision_roi x1 y1 x2 y2 frame_width frame_height);
      [|exact IH].
    destruct depth_map as [dm|]; [|exact IH].
    destruct (sample_depth_values dm _ _ DEPTH_COLLISION_SAMPLE_SIZE) as [vs|e];
      [|discriminate].
    cbn [bind andb].
    destruct (np_gt _ COLLISION_THRESHOLD); [intros _; right; reflexivity | exact IH].
Qed.

Lemma collision_results_loop_total (results : list Result) (collision_detected : bool) :
  usable depth_map ->
  known_classes class_names results ->
  ROIManager.collision_results_loop depth_map frame_width frame_height class_names
    results collision_detected
  = Ok (existsb hit (detections results) || collision_detected).
Proof.
  intros Hdm. revert collision_detected.
  induction results as [|[[bs|]] rest IH]; intros cd Hknown.
  - reflexivity.
  - apply known_classes_cons_boxes in Hknown. destruct Hknown as [Hbs Hrest].
    simpl ROIManager.collision_results_loop.
    rewrite (collision_boxes_loop_total bs cd Hdm Hbs). cbn [bind].
    rewrite (IH _ Hrest), detections_cons_boxes, existsb_app, orb_assoc.
    f_equal. f_equal. apply orb_comm.
  - apply known_classes_cons_none in Hknown.
    simpl ROIManager.collision_results_loop. rewrite (IH _ Hknown). reflexivity.
Qed.

Lemma collision_results_loop_sound (results : list Result) (collision_detected : bool) :
  ROIManager.collision_results_loop depth_map frame_width frame_height class_names
    results collision_detected = Ok true ->
  collision_detected = true \/ existsb hit (detections results) = true.
Proof.
  revert collision_detected.
  induction results as [|[[bs|]] rest IH]; intros cd;
    simpl ROIManager.collision_results_loop.
  - intros E. inversion E. left. reflexivity.
  - destruct (ROIManager.collision_boxes_loop _ _ _ _ bs cd) as [cd'|e] eqn:Ebs;
      [|discriminate].
    cbn [bind]. intros E. rewrite detections_cons_boxes, existsb_app.
    destruct (IH _ E) as [->|H].
    + destruct (collision_boxes_loop_sound _ _ Ebs) as [H|H]; [left; exact H|].
      right. rewrite H. reflexivity.
    + right. rewrite H. apply orb_true_r.
  - intros E. destruct (IH _ E) as [H|H]; [left; exact H | right; exact H].
Qed.
End CollisionLoops.




Section CloseLoops.
Variables (depth_map : option ndarray) (frame_width : Z)
          (class_names : gmap Z string).

Let close_left (box : Box) := close_b depth_map box && on_left frame_width box.
Let close_right (box : Box) := close_b depth_map box && negb (on_left frame_width box).
Let name := name_of class_names.

(** Under the two preconditions the inner loop ends and appends, in order,
    one name per close detection to the list of its side. *)
Lemma close_boxes_loop_total (bs : list Box) (l r : list string) :
  usable depth_map ->
  (forall box, In box bs -> is_Some (class_names !! cls box)) ->
  WarningSystem.close_boxes_loop depth_map frame_width class_names bs l r
  = Ok (l ++ map name (List.filter close_left bs),
        r ++ map name (List.filter close_right bs)).
Proof.
  intros Hdm. revert l r. induction bs as [|box bs IH]; intros l r Hknown.
  - simpl. rewrite !app_nil_r. reflexivity.
  - assert (Hrest : forall b, In b bs -> is_Some (class_names !! cls b))
      by (intros b Hb; apply Hknown; right; exact Hb).
    simpl WarningSystem.close_boxes_loop. simpl List.filter.
    unfold close_left at 1, close_right at 1, close_b, qualifies_b, on_left,
      median_depth_exceeds_b, center_x, center_y, get_depth_at_location.
    destruct (xyxy box) as [[[x1 y1] x2] y2].
    rewrite (dict_getitem_known _ _ (Hknown box (or_introl eq_refl))).
    cbn [bind].
    destruct (road_relevant (conf box) (cls box)); cbn [andb]; [|apply IH, Hrest].
    destruct depth_map as [dm|]; cbn [bind andb]; [|apply IH, Hrest].
    rewrite (sample_depth_values_nonempty dm _ _ _ Hdm). cbn [bind].
    destruct (np_gt _ CLOSE_DEPTH_THRESHOLD); cbn [andb]; [|apply IH, Hrest].
    destruct (Qltb ((x1 + x2) / 2) (inject_Z frame_width / 2)); cbn [negb];
      rewrite (IH _ _ Hrest); cbn [map]; rewrite <- app_assoc; reflexivity.
Qed.

Lemma close_results_loop_total (results : list Result) (l r : list string) :
  usable depth_map ->
  known_classes class_names results ->
  WarningSystem.close_results_loop depth_map frame_width class_names results l r
  = Ok (l ++ map name (List.filter close_left (detections results)),
        r ++ map name (List.filter close_right (detections results))).
Proof.
  intros Hdm. revert l r.
  induction results as [|[[bs|]] rest IH]; intros l r Hknown.
  - simpl. rewrite !app_nil_r. reflexivity.
  - apply known_classes_cons_boxes in Hknown. destruct Hknown as [Hbs Hrest].
    simpl WarningSystem.close_results_loop.
    rewrite (close_boxes_loop_total bs l r Hdm Hbs). cbn [bind fst snd].
    rewrite (IH _ _ Hrest), detections_cons_boxes.
    rewrite !List.filter_app, !map_app, !app_assoc. reflexivity.
  - apply known_classes_cons_none in Hknown.
    simpl WarningSystem.close_results_loop.
    rewrite (IH _ _ Hknown), detections_cons_none. reflexivity.
Qed.

(** The outer loop returns only after the name of every box has been
    looked up. *)
Lemma close_boxes_loop_returns (bs : list Box) (l r : list string) :
  returns (WarningSystem.close_boxes_loop depth_map frame_width class_names bs l r) ->
  forall box, In box bs -> is_Some (class_names !! cls box).
Proof.
  revert l r. induction bs as [|box bs IH]; intros l r Hret b Hin; [destruct Hin|].
  simpl WarningSystem.close_boxes_loop in Hret.
  destruct (xyxy box) as [[[x1 y1] x2] y2].
  unfold dict_getitem in Hret.
  destruct (class_names !! cls box) as [nm|] eqn:Elook;
    [|destruct Hret as [? Hret]; discriminate].
  cbn [bind] in Hret.
  destruct Hin as [<-|Hin]; [rewrite Elook; eexists; reflexivity|].
  destruct (road_relevant (conf box) (cls box)); [|exact (IH _ _ Hret b Hin)].
  destruct (match depth_map with Some _ => _ | None => _ end) as [is_close|e];
    [|destruct Hret as [? Hret]; discriminate].
  cbn [bind] in Hret.
  destruct is_close; [|exact (IH _ _ Hret b Hin)].
  destruct (Qltb _ _); exact (IH _ _ Hret b Hin).
Qed.

Lemma close_results_loop_returns (results : list Result) (l r : list string) :
  returns (WarningSystem.close_results_loop depth_map frame_width class_names
             results l r) ->
  known_classes class_names results.
Proof.
  revert l r. induction results as [|[[bs|]] rest IH]; intros l r Hret b Hin.
  - destruct Hin.
  - simpl WarningSystem.close_results_loop in Hret.
    destruct (WarningSystem.close_boxes_loop _ _ _ bs l r) as [lr|e] eqn:Ebs;
      [|destruct Hret as [? Hret]; discriminate].
    cbn [bind] in Hret.
    rewrite detections_cons_boxes in Hin. apply in_app_or in Hin.
    destruct Hin as [Hin|Hin].
    + apply (close_boxes_loop_returns bs l r); [eexists; exact Ebs | exact Hin].
    + exact (IH _ _ Hret b Hin).
  - simpl WarningSystem.close_results_loop in Hret.
    rewrite detections_cons_none in Hin. exact (IH _ _ Hret b Hin).
Qed.
End CloseLoops.


Lemma known_classes_singleton (class_names : gmap Z string) (bs : list Box) :
  Forall (fun box => is_Some (class_names !! cls box)) bs ->
  known_classes class_names [ {| boxes := Some bs |} ].
Proof.
  intros Hall box Hin. rewrite detections_cons_boxes in Hin.
  simpl in Hin. rewrite app_nil_r in Hin.
  rewrite List.Forall_forall in Hall. apply Hall. exact Hin.
Qed.

Lemma two_names_car : is_Some (two_names !! 2).
Proof. exists "car"%string. reflexivity. Qed.

Lemma two_names_traffic_light : is_Some (two_names !! 9).
Proof. exists "traffic light"%string. reflexivity. Qed.

Lemma depth_700_nonempty : nonempty depth_700.
Proof. unfold nonempty. simpl. lia. Qed.

Lemma depth_1500_nonempty : nonempty depth_1500.
Proof. unfold nonempty. simpl. lia. Qed.



(** ** No depth map *)

Lemma median_depth_exceeds_b_none (box : Box) (sample_size threshold : Z) :
  median_depth_exceeds_b None box sample_size threshold = false.
Proof. reflexivity. Qed.

Lemma no_collision_without_depth (frame_width frame_height : Z) (bs : list Box) :
  existsb (collision_condition_b None frame_width frame_height) bs = false.
Proof.
  induction bs as [|box bs IH]; [reflexivity|].
  simpl. rewrite IH. unfold collision_condition_b.
  rewrite median_depth_exceeds_b_none, andb_false_r. reflexivity.
Qed.

Lemma nothing_close_without_depth (side : Box -> bool) (bs : list Box) :
  List.filter (fun box => close_b None box && side box) bs = [].
Proof.
  induction bs as [|box bs IH]; [reflexivity|].
  simpl. rewrite IH. unfold close_b.
  rewrite median_depth_exceeds_b_none, andb_false_r. reflexivity.
Qed.

(** ** The per-frame decision *)

(** The state after a frame whose detections carry known class ids and whose
    depth map, if any, can be sampled. *)
Lemma process_frame_total (self : RoadObjectDetector.t) (frame : RoadObjectDetector.Frame) :
  usable (RoadObjectDetector.depth_map frame) ->
  known_classes (RoadObjectDetector.class_names self) (RoadObjectDetector.results frame) ->
  RoadObjectDetector.process_frame self frame
  = Ok {| RoadObjectDetector.class_names := RoadObjectDetector.class_names self;
          RoadObjectDetector.warning_system :=
            WarningSystem.update_collision_persistence
              (WarningSystem.update_warning_persistence
                 (RoadObjectDetector.warning_system self)
                 (map (name_of (RoadObjectDetector.class_names self))
                      (List.filter
                         (fun box =>
                            close_b (RoadObjectDetector.depth_map frame) box
                            && on_left (Z.of_nat (RoadObjectDetector.frame_width frame)) box)
                         (detections (RoadObjectDetector.results frame))))
                 (map (name_of (RoadObjectDetector.class_names self))
                      (List.filter
                         (fun box =>
                            close_b (RoadObjectDetector.depth_map frame) box
                            && negb (on_left
                                       (Z.of_nat (RoadObjectDetector.frame_width frame))
                                       box))
                         (detections (RoadObjectDetector.results frame)))))
              (existsb (collision_condition_b
                          (RoadObjectDetector.depth_map frame)
                          (Z.of_nat (RoadObjectDetector.frame_width frame))
                          (Z.of_nat (RoadObjectDetector.frame_height frame)))
                       (detections (RoadObjectDetector.results frame))) |}.
Proof.
  intros Hdm Hknown. unfold RoadObjectDetector.process_frame.
  unfold WarningSystem.get_close_vehicles_by_side.
  rewrite (close_results_loop_total _ _ _ _ [] [] Hdm Hknown).
  cbn [bind fst snd app].
  destruct (RoadObjectDetector.depth_map frame) as [dm|].
  - unfold ROIManager.check_collision_alert.
    rewrite (collision_results_loop_total (Some dm) _ _ _ _ false Hdm Hknown).
    cbn [bind]. rewrite orb_false_r. reflexivity.
  - cbn [bind]. rewrite no_collision_without_depth. reflexivity.
Qed.

(** Claim C7, amended.  Depth-absent degradation: with [depth_map = None],
    [check_collision_alert] never returns [True], whatever the detections; and
    for every results object whose detections all carry a class id that is a
    key of [class_names] and every frame size, [get_close_vehicles_by_side]
    returns two empty lists, [check_collision_alert] returns [False], and the
    per-frame decision updates the warning counters with two empty lists and
    the collision counter with [False]. *)
Theorem depth_absent_degradation (results : list Result) (class_names : gmap Z string)
    (frame_width frame_height : Z) :
  (ROIManager.check_collision_alert results None frame_width frame_height class_names
   <> Ok true)
  /\ (known_classes class_names results ->
      WarningSystem.get_close_vehicles_by_side results None frame_width class_names
      = Ok ([], [])
      /\ ROIManager.check_collision_alert results None frame_width frame_height
           class_names
         = Ok false
      /\ forall (ws : WarningSystem.t) (h w : nat),
           RoadObjectDetector.process_frame
             {| RoadObjectDetector.class_names := class_names;
                RoadObjectDetector.warning_system := ws |}
             {| RoadObjectDetector.frame_height := h;
                RoadObjectDetector.frame_width := w;
                RoadObjectDetector.results := results;
                RoadObjectDetector.depth_map := None |}
           = Ok {| RoadObjectDetector.class_names := class_names;
                   RoadObjectDetector.warning_system :=
                     WarningSystem.update_collision_persistence
                       (WarningSystem.update_warning_persistence ws [] []) false |}).
Proof.
  split.
  - unfold ROIManager.check_collision_alert. intros E.
    apply collision_results_loop_sound in E.
    rewrite no_collision_without_depth in E. destruct E; discriminate.
  - intros Hknown. split; [|split].
    + unfold WarningSystem.get_close_vehicles_by_side.
      rewrite (close_results_loop_total None _ _ _ [] [] I Hknown).
      rewrite !nothing_close_without_depth. reflexivity.
    + unfold ROIManager.check_collision_alert.
      rewrite (collision_results_loop_total None _ _ _ _ false I Hknown).
      rewrite no_collision_without_depth. reflexivity.
    + intros ws h w.
      rewrite process_frame_total by (simpl; auto).
      cbn [RoadObjectDetector.depth_map RoadObjectDetector.results
           RoadObjectDetector.class_names RoadObjectDetector.warning_system].
      rewrite !nothing_close_without_depth, no_collision_without_depth. reflexivity.
Qed.

Lemma depth_absent_degradation_witness :
  WarningSystem.get_close_vehicles_by_side
    [ {| boxes := Some [car_in_roi; traffic_light] |} ] None 800 two_names
  = Ok ([], [])
  /\ ROIManager.check_collision_alert
       [ {| boxes := Some [car_in_roi; traffic_light] |} ] None 800 600 two_names
     = Ok false.
Proof.
  destruct (depth_absent_degradation
              [ {| boxes := Some [car_in_roi; traffic_light] |} ] two_names 800 600)
    as [_ H].
  destruct H as [H1 [H2 _]].
  - apply known_classes_singleton.
    repeat constructor; [apply two_names_car | apply two_names_traffic_light].
  - split; [exact H1 | exact H2].
Defined.

(** The claim of C7 read for every detections list fails on a detection whose
    class id is not a key of the name table. *)
Lemma depth_absent_unknown_class :
  WarningSystem.get_close_vehicles_by_side
    [ {| boxes := Some [stray_box] |} ] None 800 two_names
  = Raise (KeyError 99).
Proof. vm_compute. reflexivity. Qed.

(** ** Detections that do not pass the filter *)

Lemma not_qualifying (d : Box) :
  (conf d <= CONFIDENCE_THRESHOLD)%Q \/ ~ In (cls d) (dict_values ROAD_CLASSES) ->
  qualifies_b d = false.
Proof.
  intros H. apply not_true_iff_false. rewrite qualifies_b_iff.
  intros [Hc Hr]. destruct H as [H|H].
  - exact (Qlt_not_le _ _ Hc H).
  - exact (H Hr).
Qed.

Section Inert.
Variables (depth_map : option ndarray) (frame_width frame_height : Z)
          (class_names : gmap Z string) (d : Box).
Hypothesis d_known : is_Some (class_names !! cls d).
Hypothesis d_filtered : qualifies_b d = false.

Lemma close_boxes_loop_inert (bs1 bs2 : list Box) (l r : list string) :
  WarningSystem.close_boxes_loop depth_map frame_width class_names
    (bs1 ++ d :: bs2) l r
  = WarningSystem.close_boxes_loop depth_map frame_width class_names
      (bs1 ++ bs2) l r.
Proof.
  revert l r. induction bs1 as [|box bs1 IH]; intros l r.
  - simpl. destruct (xyxy d) as [[[x1 y1] x2] y2].
    rewrite (dict_getitem_known _ _ d_known). cbn [bind].
    unfold qualifies_b in d_filtered. rewrite d_filtered. reflexivity.
  - rewrite <- !app_comm_cons. simpl WarningSystem.close_boxes_loop.
    destruct (xyxy box) as [[[x1 y1] x2] y2].
    destruct (dict_getitem class_names (cls box)) as [nm|e]; [|reflexivity].
    cbn [bind].
    destruct (road_relevant (conf box) (cls box)); [|apply IH].
    destruct (match depth_map with Some _ => _ | None => _ end) as [is_close|e];
      [|reflexivity].
    cbn [bind]. destruct is_close; [|apply IH].
    destruct (Qltb _ _); apply IH.
Qed.

Lemma collision_boxes_loop_inert (bs1 bs2 : list Box) (collision_detected : bool) :
  ROIManager.collision_boxes_loop depth_map frame_width frame_height class_names
    (bs1 ++ d :: bs2) collision_detected
  = ROIManager.collision_boxes_loop depth_map frame_width frame_height class_names
      (bs1 ++ bs2) collision_detected.
Proof.
  induction bs1 as [|box bs1 IH].
  - simpl. destruct (xyxy d) as [[[x1 y1] x2] y2].
    rewrite (dict_getitem_known _ _ d_known). cbn [bind].
    unfold qualifies_b in d_filtered. rewrite d_filtered. reflexivity.
  - rewrite <- !app_comm_cons. simpl ROIManager.collision_boxes_loop.
    destruct (xyxy box) as [[[x1 y1] x2] y2].
    destruct (dict_getitem class_names (cls box)) as [nm|e]; [|reflexivity].
    cbn [bind].
    destruct (road_relevant (conf box) (cls box)); [|apply IH].
    destruct (ROIManager.is_in_collision_roi _ _ _ _ _ _); [|apply IH].
    destruct depth_map as [dm|]; [|apply IH].
    destruct (sample_depth_values dm _ _ _) as [vs|e]; [|reflexivity].
    cbn [bind]. destruct (np_gt _ _); [reflexivity | apply IH].
Qed.

Lemma close_results_loop_inert (results results' : list Result) (l r : list string) :
  adds_detection d results results' ->
  WarningSystem.close_results_loop depth_map frame_width class_names results' l r
  = WarningSystem.close_results_loop depth_map frame_width class_names results l r.
Proof.
  intros Hadd. revert l r.
  induction Hadd as [bs1 bs2 rest | result results results' Hadd IH]; intros l r.
  - simpl. rewrite close_boxes_loop_inert. reflexivity.
  - simpl. destruct (boxes result) as [bs|]; [|apply IH].
    destruct (WarningSystem.close_boxes_loop _ _ _ bs l r) as [lr|e]; [|reflexivity].
    cbn [bind]. apply IH.
Qed.

Lemma collision_results_loop_inert (results results' : list Result)
    (collision_detected : bool) :
  adds_detection d results results' ->
  ROIManager.collision_results_loop depth_map frame_width frame_height class_names
    results' collision_detected
  = ROIManager.collision_results_loop depth_map frame_width frame_height class_names
      results collision_detected.
Proof.
  intros Hadd. revert collision_detected.
  induction Hadd as [bs1 bs2 rest | result results results' Hadd IH]; intros cd.
  - simpl. rewrite collision_boxes_loop_inert. reflexivity.
  - simpl. destruct (boxes result) as [bs|]; [|apply IH].
    destruct (ROIManager.collision_boxes_loop _ _ _ _ bs cd) as [cd'|e];
      [|reflexivity].
    cbn [bind]. apply IH.
Qed.
End Inert.

(** Claim C8, amended.  Inertness of filtered detections: adding, at any
    position, a detection whose class id is a key of [class_names] and whose
    confidence is not greater than [CONFIDENCE_THRESHOLD] (0.4, say) or whose
    class id is not in [ROAD_CLASSES] changes neither the outcome of
    [get_close_vehicles_by_side], nor that of [check_collision_alert], nor the
    state after the per-frame decision, so none of the three persistence
    counters; this holds for every depth map (present or not), frame size and
    box geometry of the added detection. *)
Theorem filtered_detection_is_inert (d : Box) (results results' : list Result)
    (depth_map : option ndarray) (frame_width frame_height : nat)
    (class_names : gmap Z string) :
  adds_detection d results results' ->
  is_Some (class_names !! cls d) ->
  (conf d <= CONFIDENCE_THRESHOLD)%Q \/ ~ In (cls d) (dict_values ROAD_CLASSES) ->
  WarningSystem.get_close_vehicles_by_side results' depth_map (Z.of_nat frame_width)
    class_names
  = WarningSystem.get_close_vehicles_by_side results depth_map (Z.of_nat frame_width)
      class_names
  /\ ROIManager.check_collision_alert results' depth_map (Z.of_nat frame_width)
       (Z.of_nat frame_height) class_names
     = ROIManager.check_collision_alert results depth_map (Z.of_nat frame_width)
         (Z.of_nat frame_height) class_names
  /\ forall ws : WarningSystem.t,
       RoadObjectDetector.process_frame
         {| RoadObjectDetector.class_names := class_names;
            RoadObjectDetector.warning_system := ws |}
         {| RoadObjectDetector.frame_height := frame_height;
            RoadObjectDetector.frame_width := frame_width;
            RoadObjectDetector.results := results';
            RoadObjectDetector.depth_map := depth_map |}
       = RoadObjectDetector.process_frame
           {| RoadObjectDetector.class_names := class_names;
              RoadObjectDetector.warning_system := ws |}
           {| RoadObjectDetector.frame_height := frame_height;
              RoadObjectDetector.frame_width := frame_width;
              RoadObjectDetector.results := results;
              RoadObjectDetector.depth_map := depth_map |}.
Proof.
  intros Hadd Hknown Hfiltered. apply not_qualifying in Hfiltered.
  assert (Hclose :
    WarningSystem.get_close_vehicles_by_side results' depth_map (Z.of_nat frame_width)
      class_names
    = WarningSystem.get_close_vehicles_by_side results depth_map (Z.of_nat frame_width)
        class_names).
  { unfold WarningSystem.get_close_vehicles_by_side.
    apply close_results_loop_inert with (d := d); assumption. }
  assert (Hcollision : forall dm,
    ROIManager.check_collision_alert results' dm (Z.of_nat frame_width)
      (Z.of_nat frame_height) class_names
    = ROIManager.check_collision_alert results dm (Z.of_nat frame_width)
        (Z.of_nat frame_height) class_names).
  { intros dm. unfold ROIManager.check_collision_alert.
    apply collision_results_loop_inert with (d := d); assumption. }
  split; [exact Hclose|]. split; [apply Hcollision|].
  intros ws. unfold RoadObjectDetector.process_frame.
  cbn [RoadObjectDetector.depth_map RoadObjectDetector.results
       RoadObjectDetector.class_names RoadObjectDetector.warning_system
       RoadObjectDetector.frame_width RoadObjectDetector.frame_height].
  rewrite Hclose.
  destruct depth_map as [dm|]; [rewrite (Hcollision (Some dm))|]; reflexivity.
Qed.

Lemma filtered_detection_is_inert_witness :
  WarningSystem.get_close_vehicles_by_side
    [ {| boxes := Some [car_on_left; traffic_light; car_in_roi] |} ]
    (Some depth_1500) 800 two_names
  = WarningSystem.get_close_vehicles_by_side
      [ {| boxes := Some [car_on_left; car_in_roi] |} ]
      (Some depth_1500) 800 two_names
  /\ ROIManager.check_collision_alert
       [ {| boxes := Some [car_on_left; traffic_light; car_in_roi] |} ]
       (Some depth_1500) 800 600 two_names
     = ROIManager.check_collision_alert
         [ {| boxes := Some [car_on_left; car_in_roi] |} ]
         (Some depth_1500) 800 600 two_names.
Proof.
  destruct (filtered_detection_is_inert traffic_light
              [ {| boxes := Some [car_on_left; car_in_roi] |} ]
              [ {| boxes := Some [car_on_left; traffic_light; car_in_roi] |} ]
              (Some depth_1500) 800%nat 600%nat two_names) as [H1 [H2 _]].
  - apply (adds_here traffic_light [car_on_left] [car_in_roi] []).
  - apply two_names_traffic_light.
  - left. unfold Qle. simpl. lia.
  - split; [exact H1 | exact H2].
Defined.

(** The claim of C8 read for every added detection fails on one whose class id
    is not a key of the name table: the call that returned now raises. *)
Lemma filtered_detection_unknown_class :
  adds_detection stray_box [ {| boxes := Some [car_in_roi] |} ]
                           [ {| boxes := Some [car_in_roi; stray_box] |} ]
  /\ (conf stray_box <= CONFIDENCE_THRESHOLD)%Q
  /\ ~ In (cls stray_box) (dict_values ROAD_CLASSES)
  /\ WarningSystem.get_close_vehicles_by_side
       [ {| boxes := Some [car_in_roi] |} ] (Some depth_1500) 800 two_names
     = Ok ([], ["car"%string])
  /\ WarningSystem.get_close_vehicles_by_side
       [ {| boxes := Some [car_in_roi; stray_box] |} ] (Some depth_1500) 800 two_names
     = Raise (KeyError 99).
Proof.
  split; [apply (adds_here stray_box [car_in_roi] [] [])|].
  split; [unfold Qle; simpl; lia|].
  split; [|split; vm_compute; reflexivity].
  simpl. intros H. repeat (destruct H as [H|H]; [discriminate|]). exact H.
Qed.

(** ** The class-name lookup *)

Section LookupFirst.
Variables (depth_map : option ndarray) (frame_width frame_height : Z)
          (class_names : gmap Z string).

Lemma close_unknown_head (d : Box) (bs : list Box) (rest : list Result)
    (l r : list string) :
  class_names !! cls d = None ->
  WarningSystem.close_results_loop depth_map frame_width class_names
    ({| boxes := Some (d :: bs) |} :: rest) l r
  = Raise (KeyError (cls d)).
Proof.
  intros Hnone. simpl. destruct (xyxy d) as [[[x1 y1] x2] y2].
  rewrite (dict_getitem_unknown _ _ Hnone). reflexivity.
Qed.

Lemma collision_unknown_head (d : Box) (bs : list Box) (rest : list Result)
    (collision_detected : bool) :
  class_names !! cls d = None ->
  ROIManager.collision_results_loop depth_map frame_width frame_height class_names
    ({| boxes := Some (d :: bs) |} :: rest) collision_detected
  = Raise (KeyError (cls d)).
Proof.
  intros Hnone. simpl. destruct (xyxy d) as [[[x1 y1] x2] y2].
  rewrite (dict_getitem_unknown _ _ Hnone). reflexivity.
Qed.

(** A collision loop that ends with the flag unset has visited every box. *)
Lemma collision_boxes_loop_false (bs : list Box) (collision_detected : bool) :
  ROIManager.collision_boxes_loop depth_map frame_width frame_height class_names
    bs collision_detected = Ok false ->
  collision_detected = false
  /\ forall box, In box bs -> is_Some (class_names !! cls box).
Proof.
  induction bs as [|box bs IH]; simpl ROIManager.collision_boxes_loop.
  - intros E. inversion E. split; [reflexivity | intros b []].
  - destruct (xyxy box) as [[[x1 y1] x2] y2]. unfold dict_getitem.
    destruct (class_names !! cls box) as [nm|] eqn:Elook; [|discriminate].
    cbn [bind]. intros E.
    assert (Hgoal : ROIManager.collision_boxes_loop depth_map frame_width
                      frame_height class_names bs collision_detected = Ok false).
    { destruct (road_relevant (conf box) (cls box)); [|exact E].
      destruct (ROIManager.is_in_collision_roi _ _ _ _ _ _); [|exact E].
      destruct depth_map as [dm|]; [|exact E].
      destruct (sample_depth_values dm _ _ _) as [vs|e]; [|discriminate].
      cbn [bind] in E. destruct (np_gt _ _); [discriminate | exact E]. }
    destruct (IH Hgoal) as [Hcd Hbs]. split; [exact Hcd|].
    intros b [<-|Hin]; [rewrite Elook; eexists; reflexivity | apply Hbs, Hin].
Qed.

Lemma collision_results_loop_false (results : list Result) (collision_detected : bool) :
  ROIManager.collision_results_loop depth_map frame_width frame_height class_names
    results collision_detected = Ok false ->
  collision_detected = false /\ known_classes class_names results.
Proof.
  revert collision_detected.
  induction results as [|[[bs|]] rest IH]; intros cd;
    simpl ROIManager.collision_results_loop.
  - intros E. inversion E. split; [reflexivity | intros b []].
  - destruct (ROIManager.collision_boxes_loop _ _ _ _ bs cd) as [cd'|e] eqn:Ebs;
      [|discriminate].
    cbn [bind]. intros E. destruct (IH _ E) as [-> Hrest].
    destruct (collision_boxes_loop_false _ _ Ebs) as [Hcd Hbs].
    split; [exact Hcd|].
    intros b Hin. rewrite detections_cons_boxes in Hin. apply in_app_or in Hin.
    destruct Hin as [Hin|Hin]; [apply Hbs, Hin | apply Hrest, Hin].
  - intros E. destruct (IH _ E) as [Hcd Hrest]. split; [exact Hcd|].
    intros b Hin. rewrite detections_cons_none in Hin. apply Hrest, Hin.
Qed.
End LookupFirst.

(** Claim C10.  The class-name lookup comes before the filter: in
    [get_close_vehicles_by_side] and in [check_collision_alert] a first
    detection whose class id is not a key of [class_names] raises [KeyError],
    whatever its confidence and class.  Both calls return when every
    detection's class id is a key (and the depth map, if present, can be
    sampled); the classifier returns only then, and so does the collision
    check whenever it returns [False]. *)
Theorem class_name_lookup_precedes_filter (class_names : gmap Z string)
    (depth_map : option ndarray) (frame_width frame_height : Z) :
  (* the first box is looked up before anything about it is tested *)
  (forall (d : Box) (bs : list Box) (rest : list Result),
     class_names !! cls d = None ->
     WarningSystem.get_close_vehicles_by_side
       ({| boxes := Some (d :: bs) |} :: rest) depth_map frame_width class_names
     = Raise (KeyError (cls d))
     /\ ROIManager.check_collision_alert
          ({| boxes := Some (d :: bs) |} :: rest) depth_map frame_width frame_height
          class_names
        = Raise (KeyError (cls d)))
  (* with every class id known, and a depth map that can be sampled, both return *)
  /\ (forall results : list Result,
        known_classes class_names results -> usable depth_map ->
        returns (WarningSystem.get_close_vehicles_by_side
                   results depth_map frame_width class_names)
        /\ returns (ROIManager.check_collision_alert
                      results depth_map frame_width frame_height class_names))
  (* and they return only then: always for the classifier, and for the
     collision check whenever its loop was not left early *)
  /\ (forall results : list Result,
        returns (WarningSystem.get_close_vehicles_by_side
                   results depth_map frame_width class_names) ->
        known_classes class_names results)
  /\ (forall results : list Result,
        ROIManager.check_collision_alert
          results depth_map frame_width frame_height class_names = Ok false ->
        known_classes class_names results).
Proof.
  split; [|split; [|split]].
  - intros d bs rest Hnone. split.
    + apply close_unknown_head. exact Hnone.
    + apply collision_unknown_head. exact Hnone.
  - intros results Hknown Hdm. split.
    + unfold WarningSystem.get_close_vehicles_by_side.
      rewrite (close_results_loop_total _ _ _ _ [] [] Hdm Hknown).
      eexists. reflexivity.
    + unfold ROIManager.check_collision_alert.
      rewrite (collision_results_loop_total _ _ _ _ _ false Hdm Hknown).
      eexists. reflexivity.
  - intros results. apply close_results_loop_returns.
  - intros results E. apply collision_results_loop_false in E. apply E.
Qed.

Lemma class_name_lookup_precedes_filter_witness :
  two_names !! cls stray_box = None
  /\ (conf stray_box <= CONFIDENCE_THRESHOLD)%Q
  /\ in_road_classes (cls stray_box) = false
  /\ WarningSystem.get_close_vehicles_by_side
       [ {| boxes := Some [stray_box; car_in_roi] |} ] (Some depth_1500) 800 two_names
     = Raise (KeyError 99)
  /\ ROIManager.check_collision_alert
       [ {| boxes := Some [stray_box; car_in_roi] |} ] (Some depth_1500) 800 600
       two_names
     = Raise (KeyError 99).
Proof.
  split; [reflexivity|]. split; [unfold Qle; simpl; lia|]. split; [reflexivity|].
  destruct (class_name_lookup_precedes_filter two_names (Some depth_1500) 800 600)
    as [H _].
  apply (H stray_box [car_in_roi] []). reflexivity.
Defined.

(** ** Two frames with a collision *)








(** ** The sampling window *)

Lemma py_range_window_length (s : Z) :
  length (py_range (- s) s 2) = Z.to_nat s.
Proof.
  unfold py_range. rewrite length_map, length_seq. f_equal.
  Z.div_mod_to_equations. lia.
Qed.

Lemma py_range_window_in (s x : Z) :
  In x (py_range (- s) s 2) <-> exists i, 0 <= i < s /\ x = - s + 2 * i.
Proof.
  unfold py_range. rewrite in_map_iff. split.
  - intros [n [<- Hn]]. apply in_seq in Hn. exists (Z.of_nat n). split; [|reflexivity].
    assert (Z.of_nat n < (s - - s + 2 - 1) / 2) by lia.
    Z.div_mod_to_equations. lia.
  - intros [i [Hi ->]]. exists (Z.to_nat i). split; [f_equal; lia|].
    apply in_seq. split; [lia|]. simpl.
    assert (i < (s - - s + 2 - 1) / 2) by (Z.div_mod_to_equations; lia). lia.
Qed.

Lemma length_flat_map_const {A B : Type} (f : A -> list B) (n : nat) (l : list A) :
  (forall x, length (f x) = n) -> length (flat_map f l) = (length l * n)%nat.
Proof.
  intros Hf. induction l as [|x l IH]; simpl; [reflexivity|].
  rewrite length_app, Hf, IH. reflexivity.
Qed.

Lemma sample_indices_length (a : ndarray) (center_x center_y sample_size : Z) :
  length (sample_indices a center_x center_y sample_size)
  = (Z.to_nat sample_size * Z.to_nat sample_size)%nat.
Proof.
  unfold sample_indices.
  rewrite (length_flat_map_const _ (Z.to_nat sample_size)).
  - rewrite py_range_window_length. reflexivity.
  - intros dx. rewrite length_map. apply py_range_window_length.
Qed.

Lemma for_collect_length {A B : Type} (body : A -> res B) (xs : list A) (vs : list B) :
  for_collect body xs = Ok vs -> length vs = length xs.
Proof.
  revert vs. induction xs as [|x xs IH]; intros vs; simpl.
  - intros E. inversion E. reflexivity.
  - destruct (body x) as [v|e]; [|discriminate]. simpl.
    destruct (for_collect body xs) as [ws|e]; [|discriminate]. simpl.
    intros E. inversion E. simpl. f_equal. apply IH. reflexivity.
Qed.

(** X1.  Whenever the sampling loop returns its list, the list has exactly
    [sample_size * sample_size] depth values for a positive radius and none
    for a radius that is zero or negative. *)
Theorem sample_count (a : ndarray) (center_x center_y sample_size : Z)
    (depth_values : list Q) :
  sample_depth_values a center_x center_y sample_size = Ok depth_values ->
  length depth_values = (Z.to_nat sample_size * Z.to_nat sample_size)%nat.
Proof.
  intros E. unfold sample_depth_values in E.
  apply for_collect_length in E. rewrite E. apply sample_indices_length.
Qed.

Lemma sample_count_witness :
  exists depth_values,
    sample_depth_values depth_2x3 1 1 4 = Ok depth_values
    /\ length depth_values = 16%nat.
Proof.
  eexists. split; [vm_compute; reflexivity|].
  apply (sample_count depth_2x3 1 1 4). vm_compute. reflexivity.
Defined.

Lemma sample_indices_no_radius (a : ndarray) (center_x center_y sample_size : Z) :
  sample_size <= 0 -> sample_indices a center_x center_y sample_size = [].
Proof.
  intros Hs. apply length_zero_iff_nil. rewrite sample_indices_length. lia.
Qed.

Lemma sample_indices_some_radius (a : ndarray) (center_x center_y sample_size : Z) :
  1 <= sample_size ->
  exists yx rest, sample_indices a center_x center_y sample_size = yx :: rest.
Proof.
  intros Hs.
  destruct (sample_indices a center_x center_y sample_size) as [|yx rest] eqn:E.
  - apply (f_equal (@length _)) in E. rewrite sample_indices_length in E.
    simpl in E. lia.
  - exists yx, rest. reflexivity.
Qed.

Lemma np_median_nan (values : list Q) : np_median values = NaN <-> values = [].
Proof.
  destruct values as [|v values]; [simpl; tauto|].
  unfold np_median. split; [|discriminate].
  destruct (Nat.even (length (v :: values))); discriminate.
Qed.

Lemma np_sort_nth_in (values : list Q) (i : nat) :
  (i < length values)%nat -> In (nth i (np_sort values) 0%Q) values.
Proof.
  intros Hi.
  apply (Permutation_in _ (Permutation_sym (np_sort_permutation values))).
  apply nth_In. rewrite np_sort_length. exact Hi.
Qed.

(** The median of values between [lo] and [hi] lies between [lo] and [hi]. *)
Lemma np_median_between (values : list Q) (lo hi : Q) :
  values <> [] ->
  (forall v, In v values -> lo <= v /\ v <= hi)%Q ->
  exists m, np_median values = Fin m /\ (lo <= m /\ m <= hi)%Q.
Proof.
  intros Hne Hall. destruct values as [|v values]; [congruence|].
  unfold np_median. set (vs := v :: values) in *.
  assert (Hlen : (1 <= length vs)%nat) by (simpl; lia).
  destruct (Nat.even (length vs)) eqn:Heven.
  - assert (H2 : (2 <= length vs)%nat).
    { destruct (length vs) as [|[|n]]; [lia | discriminate | lia]. }
    assert (Hi : (length vs / 2 - 1 < length vs)%nat).
    { pose proof (Nat.div_lt (length vs) 2 ltac:(lia) ltac:(lia)). lia. }
    assert (Hj : (length vs / 2 < length vs)%nat) by (apply Nat.div_lt; lia).
    destruct (Hall _ (np_sort_nth_in vs _ Hi)) as [Hi1 Hi2].
    destruct (Hall _ (np_sort_nth_in vs _ Hj)) as [Hj1 Hj2].
    eexists. split; [reflexivity|]. split.
    + apply Qle_shift_div_l; [reflexivity | lra].
    + apply Qle_shift_div_r; [reflexivity | lra].
  - assert (Hj : (length vs / 2 < length vs)%nat) by (apply Nat.div_lt; lia).
    eexists. split; [reflexivity|]. apply Hall, np_sort_nth_in, Hj.
Qed.

(** X2.  The three outcomes of [get_depth_at_location]: with a radius of at
    most 0 nothing is read and the result is NaN, on any array; with a radius
    of at least 1 the result is a finite number on an array with at least one
    row and column, and [IndexError] on an array without rows or columns. *)
Theorem get_depth_at_location_cases (a : ndarray) (center_x center_y sample_size : Z) :
  (sample_size <= 0 ->
   get_depth_at_location a center_x center_y sample_size = Ok NaN)
  /\ (1 <= sample_size -> nonempty a ->
      exists m, get_depth_at_location a center_x center_y sample_size = Ok (Fin m))
  /\ (1 <= sample_size -> ~ nonempty a ->
      get_depth_at_location a center_x center_y sample_size = Raise IndexError).
Proof.
  unfold get_depth_at_location, sample_depth_values. split; [|split].
  - intros Hs. rewrite sample_indices_no_radius by exact Hs. reflexivity.
  - intros Hs Hne.
    fold (sample_depth_values a center_x center_y sample_size).
    rewrite (sample_depth_values_nonempty _ _ _ _ Hne). cbn [bind].
    destruct (sample_indices_some_radius a center_x center_y _ Hs) as [yx [rest E]].
    rewrite E. simpl map.
    destruct (np_median (value_at a yx :: map (value_at a) rest)) as [m|] eqn:Em.
    + exists m. reflexivity.
    + apply np_median_nan in Em. discriminate.
  - intros Hs Hne.
    destruct (sample_indices_some_radius a center_x center_y _ Hs) as [[y x] [rest E]].
    rewrite E. cbn [for_collect]. rewrite (getitem_empty _ _ _ Hne). reflexivity.
Qed.

Lemma get_depth_at_location_cases_witness :
  get_depth_at_location depth_2x3 1 1 0 = Ok NaN
  /\ (exists m, get_depth_at_location depth_2x3 1 1 3 = Ok (Fin m))
  /\ get_depth_at_location depth_empty 1 1 3 = Raise IndexError.
Proof.
  split; [|split].
  - apply (get_depth_at_location_cases depth_2x3 1 1 0). lia.
  - apply (get_depth_at_location_cases depth_2x3 1 1 3); [lia|].
    unfold nonempty. simpl. lia.
  - apply (get_depth_at_location_cases depth_empty 1 1 3); [lia|].
    unfold nonempty. simpl. lia.
Defined.

Lemma sampled_values_between (a : ndarray) (center_x center_y sample_size : Z)
    (lo hi : Q) :
  nonempty a -> values_between a lo hi ->
  forall v, In v (map (value_at a) (sample_indices a center_x center_y sample_size)) ->
            (lo <= v /\ v <= hi)%Q.
Proof.
  intros Hne Hall v Hin. apply in_map_iff in Hin. destruct Hin as [yx [<- Hin]].
  apply Hall.
  pose proof (sample_indices_in_bounds a center_x center_y sample_size Hne) as Hb.
  rewrite List.Forall_forall in Hb. apply Hb, Hin.
Qed.

(** The median sampled on a map of bounded values is bounded alike. *)
Lemma sampled_median_bounds (a : ndarray) (center_x center_y sample_size : Z)
    (lo hi : Q) :
  nonempty a -> 1 <= sample_size -> values_between a lo hi ->
  exists m, get_depth_at_location a center_x center_y sample_size = Ok (Fin m)
            /\ (lo <= m /\ m <= hi)%Q.
Proof.
  intros Hne Hs Hall. unfold get_depth_at_location.
  rewrite (sample_depth_values_nonempty _ _ _ _ Hne). cbn [bind].
  destruct (np_median_between
              (map (value_at a) (sample_indices a center_x center_y sample_size))
              lo hi) as [m [Em Hm]].
  - destruct (sample_indices_some_radius a center_x center_y _ Hs) as [yx [rest E]].
    rewrite E. discriminate.
  - apply sampled_values_between; assumption.
  - exists m. rewrite Em. split; [reflexivity | exact Hm].
Qed.

(** X3.  On an array with at least one row and column whose values all lie
    between [lo] and [hi], [get_depth_at_location] with a radius of at least 1
    returns a finite median between [lo] and [hi], whatever the centre. *)
Theorem sampled_median_between (a : ndarray) (center_x center_y sample_size : Z)
    (lo hi : Q) :
  nonempty a -> 1 <= sample_size -> values_between a lo hi ->
  exists m, get_depth_at_location a center_x center_y sample_size = Ok (Fin m)
            /\ (lo <= m /\ m <= hi)%Q.
Proof. apply sampled_median_bounds. Qed.

Lemma depth_2x3_between : values_between depth_2x3 0 12.
Proof.
  intros [y x] [Hy Hx]. unfold value_at, depth_2x3 in *. simpl in *.
  rewrite <- (Zle_Qle 0), <- (Zle_Qle _ 12). lia.
Qed.

Lemma sampled_median_between_witness :
  exists m, get_depth_at_location depth_2x3 (-7) 40 4 = Ok (Fin m)
            /\ (0 <= m /\ m <= 12)%Q.
Proof.
  apply (sampled_median_between depth_2x3 (-7) 40 4 0 12).
  - unfold nonempty. simpl. lia.
  - lia.
  - apply depth_2x3_between.
Defined.

(** X4.  When the sampling window lies inside the map nothing is clamped: the
    pixels read are exactly those at the offsets [-s, -s+2, ..., s-2] from the
    centre on both axes, so the window leans towards the top left; and for an
    odd radius (5 in the callers) the centre pixel itself is not read. *)
Theorem interior_window (a : ndarray) (center_x center_y sample_size : Z) :
  sample_size <= center_x -> center_x + sample_size - 2 <= Z.of_nat (shape1 a) - 1 ->
  sample_size <= center_y -> center_y + sample_size - 2 <= Z.of_nat (shape0 a) - 1 ->
  (forall y x,
     In (y, x) (sample_indices a center_x center_y sample_size)
     <-> exists i j, 0 <= i < sample_size /\ 0 <= j < sample_size
                     /\ x = center_x - sample_size + 2 * i
                     /\ y = center_y - sample_size + 2 * j)
  /\ (Z.odd sample_size = true ->
      ~ In (center_y, center_x) (sample_indices a center_x center_y sample_size)).
Proof.
  intros Hx1 Hx2 Hy1 Hy2.
  assert (Hchar : forall y x,
     In (y, x) (sample_indices a center_x center_y sample_size)
     <-> exists i j, 0 <= i < sample_size /\ 0 <= j < sample_size
                     /\ x = center_x - sample_size + 2 * i
                     /\ y = center_y - sample_size + 2 * j).
  { intros y x. unfold sample_indices. rewrite in_flat_map. split.
    - intros [dx [Hdx Hin]]. apply in_map_iff in Hin. destruct Hin as [dy [E Hdy]].
      apply py_range_window_in in Hdx. destruct Hdx as [i [Hi ->]].
      apply py_range_window_in in Hdy. destruct Hdy as [j [Hj ->]].
      unfold sample_index in E. inversion E. exists i, j. lia.
    - intros [i [j [Hi [Hj [-> ->]]]]].
      exists (- sample_size + 2 * i). split.
      + apply py_range_window_in. exists i. split; [exact Hi | reflexivity].
      + apply in_map_iff. exists (- sample_size + 2 * j). split.
        * unfold sample_index. f_equal; lia.
        * apply py_range_window_in. exists j. split; [exact Hj | reflexivity]. }
  split; [exact Hchar|].
  intros Hodd Hin. apply Hchar in Hin. destruct Hin as [i [j [_ [_ [Hi _]]]]].
  assert (sample_size = 2 * i) by lia. subst sample_size.
  rewrite Z.odd_mul in Hodd. discriminate.
Qed.

Lemma interior_window_witness :
  ~ In (100, 120) (sample_indices depth_700 120 100 5).
Proof.
  apply (interior_window depth_700 120 100 5); simpl; first [lia | reflexivity].
Defined.

(** X5.  A centre that lies at least the radius outside the map on both axes
    makes every read clamp to one corner pixel, and the returned median is the
    value of that corner. *)
Theorem saturated_window (a : ndarray) (center_x center_y sample_size x y : Z) :
  nonempty a -> 1 <= sample_size ->
  (center_x + sample_size <= 0 /\ x = 0
   \/ Z.of_nat (shape1 a) - 1 + sample_size <= center_x /\ x = Z.of_nat (shape1 a) - 1) ->
  (center_y + sample_size <= 0 /\ y = 0
   \/ Z.of_nat (shape0 a) - 1 + sample_size <= center_y /\ y = Z.of_nat (shape0 a) - 1) ->
  Forall (fun yx => yx = (y, x)) (sample_indices a center_x center_y sample_size)
  /\ exists m, get_depth_at_location a center_x center_y sample_size = Ok (Fin m)
               /\ (m == item a y x)%Q.
Proof.
  intros Hne Hs Hx Hy.
  assert (Hall : Forall (fun yx => yx = (y, x))
                   (sample_indices a center_x center_y sample_size)).
  { apply List.Forall_forall. intros yx Hin. unfold sample_indices in Hin.
    apply in_flat_map in Hin. destruct Hin as [dx [Hdx Hin]].
    apply in_map_iff in Hin. destruct Hin as [dy [<- Hdy]].
    apply py_range_window_in in Hdx. destruct Hdx as [i [Hi ->]].
    apply py_range_window_in in Hdy. destruct Hdy as [j [Hj ->]].
    destruct Hne as [H0 H1]. unfold sample_index. f_equal; lia. }
  split; [exact Hall|].
  unfold get_depth_at_location.
  rewrite (sample_depth_values_nonempty _ _ _ _ Hne). cbn [bind].
  destruct (np_median_between
              (map (value_at a) (sample_indices a center_x center_y sample_size))
              (item a y x) (item a y x)) as [m [Em [Hlo Hhi]]].
  - destruct (sample_indices_some_radius a center_x center_y _ Hs) as [yx [rest E]].
    rewrite E. discriminate.
  - intros v Hin. apply in_map_iff in Hin. destruct Hin as [yx [<- Hin]].
    rewrite List.Forall_forall in Hall. rewrite (Hall _ Hin).
    unfold value_at. simpl. split; apply Qle_refl.
  - exists m. rewrite Em. split; [reflexivity|]. apply Qle_antisym; assumption.
Qed.

Lemma saturated_window_witness :
  exists m, get_depth_at_location depth_2x3 (-40) 900 4 = Ok (Fin m)
            /\ (m == item depth_2x3 1 0)%Q.
Proof.
  apply (saturated_window depth_2x3 (-40) 900 4 0 1).
  - unfold nonempty. simpl. lia.
  - lia.
  - left. lia.
  - right. simpl. lia.
Defined.

(** ** The ROI rectangle *)

(** X6.  For every frame size the ROI rectangle of [get_roi_coordinates] lies
    inside the frame, with [left <= right], [top <= bottom = frame height];
    the margin on its right exceeds the one on its left by [width mod 4]; a
    frame narrower than 4 pixels gives [left = right = 0] and a frame lower
    than 3 pixels gives [top = bottom]. *)
Theorem roi_inside_frame (w h : nat) :
  0 <= roi_left (Z.of_nat w) (Z.of_nat h)
  /\ roi_left (Z.of_nat w) (Z.of_nat h) <= roi_right (Z.of_nat w) (Z.of_nat h)
  /\ roi_right (Z.of_nat w) (Z.of_nat h) <= Z.of_nat w
  /\ 0 <= roi_top (Z.of_nat w) (Z.of_nat h)
  /\ roi_top (Z.of_nat w) (Z.of_nat h) <= roi_bottom (Z.of_nat w) (Z.of_nat h)
  /\ roi_bottom (Z.of_nat w) (Z.of_nat h) = Z.of_nat h
  /\ (Z.of_nat w - roi_right (Z.of_nat w) (Z.of_nat h))
     - roi_left (Z.of_nat w) (Z.of_nat h) = Z.of_nat w mod 4
  /\ ((w < 4)%nat ->
      roi_left (Z.of_nat w) (Z.of_nat h) = 0 /\ roi_right (Z.of_nat w) (Z.of_nat h) = 0)
  /\ ((h < 3)%nat -> roi_top (Z.of_nat w) (Z.of_nat h) = Z.of_nat h).
Proof.
  unfold roi_left, roi_right, roi_top, roi_bottom.
  cbn [ROIManager.get_roi_coordinates]. cbv zeta. unfold GRID_COLS, GRID_ROWS.
  pose proof (Z.div_mod (Z.of_nat w) 4 ltac:(lia)) as Ew.
  pose proof (Z.mod_pos_bound (Z.of_nat w) 4 ltac:(lia)) as Bw.
  pose proof (Z.div_mod (Z.of_nat h) 3 ltac:(lia)) as Eh.
  pose proof (Z.mod_pos_bound (Z.of_nat h) 3 ltac:(lia)) as Bh.
  set (cw := Z.of_nat w / 4) in *. set (mw := Z.of_nat w mod 4) in *.
  set (ch := Z.of_nat h / 3) in *. set (mh := Z.of_nat h mod 3) in *.
  repeat match goal with |- _ /\ _ => split end; lia.
Qed.

Lemma roi_inside_frame_witness :
  roi_left 3 2 = 0 /\ roi_right 3 2 = 0 /\ roi_top 3 2 = 2.
Proof.
  destruct (roi_inside_frame 3 2) as [_ [_ [_ [_ [_ [_ [_ [Hw Hh]]]]]]]].
  destruct Hw as [Hl Hr]; [lia|]. split; [exact Hl|]. split; [exact Hr|].
  apply Hh. lia.
Defined.

(** X7.  [draw_roi] paints the rectangle whose corners are the coordinates of
    [get_roi_coordinates], and for a well-formed box [is_in_collision_roi] is
    true iff the box shares a point with that painted rectangle: the region
    shown is the region tested. *)
Theorem roi_overlay_is_tested_region (x1 y1 x2 y2 : Q) (w h : nat) :
  (x1 <= x2)%Q -> (y1 <= y2)%Q ->
  Visualizer.draw_roi (Z.of_nat w) (Z.of_nat h)
  = ((roi_left (Z.of_nat w) (Z.of_nat h), roi_top (Z.of_nat w) (Z.of_nat h)),
     (roi_right (Z.of_nat w) (Z.of_nat h), roi_bottom (Z.of_nat w) (Z.of_nat h)))
  /\ (ROIManager.is_in_collision_roi x1 y1 x2 y2 (Z.of_nat w) (Z.of_nat h) = true
      <-> exists px py : Q,
            in_rectangle px py x1 y1 x2 y2
            /\ in_rectangle px py
                 (inject_Z (fst (fst (Visualizer.draw_roi (Z.of_nat w) (Z.of_nat h)))))
                 (inject_Z (snd (fst (Visualizer.draw_roi (Z.of_nat w) (Z.of_nat h)))))
                 (inject_Z (fst (snd (Visualizer.draw_roi (Z.of_nat w) (Z.of_nat h)))))
                 (inject_Z (snd (snd (Visualizer.draw_roi (Z.of_nat w) (Z.of_nat h)))))).
Proof.
  intros Hx Hy. split; [reflexivity|].
  change (fst (fst (Visualizer.draw_roi (Z.of_nat w) (Z.of_nat h))))
    with (roi_left (Z.of_nat w) (Z.of_nat h)).
  change (snd (fst (Visualizer.draw_roi (Z.of_nat w) (Z.of_nat h))))
    with (roi_top (Z.of_nat w) (Z.of_nat h)).
  change (fst (snd (Visualizer.draw_roi (Z.of_nat w) (Z.of_nat h))))
    with (roi_right (Z.of_nat w) (Z.of_nat h)).
  change (snd (snd (Visualizer.draw_roi (Z.of_nat w) (Z.of_nat h))))
    with (roi_bottom (Z.of_nat w) (Z.of_nat h)).
  destruct (roi_sides_ordered w h) as [Hlr Htb].
  rewrite Zle_Qle in Hlr, Htb.
  rewrite is_in_collision_roi_true_iff.
  pose proof (intervals_overlap_iff _ _ _ _ Hx Hlr) as Ox.
  pose proof (intervals_overlap_iff _ _ _ _ Hy Htb) as Oy.
  unfold in_rectangle. split.
  - intros [H1 [H2 [H3 H4]]].
    destruct (proj2 Ox (conj H1 H2)) as [px Hpx].
    destruct (proj2 Oy (conj H3 H4)) as [py Hpy].
    exists px, py. tauto.
  - intros [px [py [Hb Hr]]].
    assert (Hox : intervals_overlap x1 x2
                    (inject_Z (roi_left (Z.of_nat w) (Z.of_nat h)))
                    (inject_Z (roi_right (Z.of_nat w) (Z.of_nat h))))
      by (exists px; tauto).
    assert (Hoy : intervals_overlap y1 y2
                    (inject_Z (roi_top (Z.of_nat w) (Z.of_nat h)))
                    (inject_Z (roi_bottom (Z.of_nat w) (Z.of_nat h))))
      by (exists py; tauto).
    apply Ox in Hox. apply Oy in Hoy. tauto.
Qed.

Lemma roi_overlay_is_tested_region_witness :
  ROIManager.is_in_collision_roi 100 350 200 400 800 600 = true
  <-> exists px py : Q,
        in_rectangle px py 100 350 200 400 /\ in_rectangle px py 200 400 600 600.
Proof.
  apply (roi_overlay_is_tested_region 100 350 200 400 800%nat 600%nat);
    unfold Qle; simpl; lia.
Defined.

(** ** The collision decision and the detections *)

Lemma existsb_permutation {A : Type} (f : A -> bool) (l l' : list A) :
  Permutation l l' -> existsb f l = existsb f l'.
Proof.
  induction 1 as [|x l l' _ IH|x y l|l l' l'' _ IH1 _ IH2]; simpl.
  - reflexivity.
  - rewrite IH. reflexivity.
  - rewrite !orb_assoc, (orb_comm (f y) (f x)). reflexivity.
  - rewrite IH1. exact IH2.
Qed.

Lemma filter_permutation {A : Type} (f : A -> bool) (l l' : list A) :
  Permutation l l' -> Permutation (List.filter f l) (List.filter f l').
Proof.
  induction 1 as [|x l l' _ IH|x y l|l l' l'' _ IH1 _ IH2]; simpl.
  - apply perm_nil.
  - destruct (f x); [apply perm_skip|]; exact IH.
  - destruct (f x), (f y); try apply Permutation_refl. apply perm_swap.
  - exact (perm_trans IH1 IH2).
Qed.

Lemma truthy_permutation {A : Type} (l l' : list A) :
  Permutation l l' -> WarningSystem.truthy l = WarningSystem.truthy l'.
Proof.
  intros H. apply Permutation_length in H.
  destruct l, l'; simpl in *; try reflexivity; discriminate.
Qed.

Lemma update_warning_persistence_truthy (ws : WarningSystem.t) (l r l' r' : list string) :
  WarningSystem.truthy l = WarningSystem.truthy l' ->
  WarningSystem.truthy r = WarningSystem.truthy r' ->
  WarningSystem.update_warning_persistence ws l r
  = WarningSystem.update_warning_persistence ws l' r'.
Proof.
  intros Hl Hr. unfold WarningSystem.update_warning_persistence.
  rewrite Hl, Hr. reflexivity.
Qed.

Lemma known_classes_permutation (class_names : gmap Z string)
    (results results' : list Result) :
  Permutation (detections results) (detections results') ->
  known_classes class_names results -> known_classes class_names results'.
Proof.
  intros Hperm Hknown box Hin. apply Hknown.
  apply (Permutation_in _ (Permutation_sym Hperm)). exact Hin.
Qed.

(** X8.  When every class id is a key of [class_names] and the depth map, if
    any, can be sampled, the order of the detections and their grouping into
    result objects do not matter: [check_collision_alert] returns the same
    value, [get_close_vehicles_by_side] returns lists that are permutations,
    and the state after the per-frame decision is the same. *)
Theorem detection_order_is_irrelevant (results results' : list Result)
    (depth_map : option ndarray) (frame_width frame_height : nat)
    (class_names : gmap Z string) :
  usable depth_map ->
  known_classes class_names results ->
  Permutation (detections results) (detections results') ->
  ROIManager.check_collision_alert results' depth_map (Z.of_nat frame_width)
    (Z.of_nat frame_height) class_names
  = ROIManager.check_collision_alert results depth_map (Z.of_nat frame_width)
      (Z.of_nat frame_height) class_names
  /\ (exists l r l' r',
        WarningSystem.get_close_vehicles_by_side results depth_map
          (Z.of_nat frame_width) class_names = Ok (l, r)
        /\ WarningSystem.get_close_vehicles_by_side results' depth_map
             (Z.of_nat frame_width) class_names = Ok (l', r')
        /\ Permutation l l' /\ Permutation r r')
  /\ forall ws : WarningSystem.t,
       RoadObjectDetector.process_frame
         {| RoadObjectDetector.class_names := class_names;
            RoadObjectDetector.warning_system := ws |}
         {| RoadObjectDetector.frame_height := frame_height;
            RoadObjectDetector.frame_width := frame_width;
            RoadObjectDetector.results := results';
            RoadObjectDetector.depth_map := depth_map |}
       = RoadObjectDetector.process_frame
           {| RoadObjectDetector.class_names := class_names;
              RoadObjectDetector.warning_system := ws |}
           {| RoadObjectDetector.frame_height := frame_height;
              RoadObjectDetector.frame_width := frame_width;
              RoadObjectDetector.results := results;
              RoadObjectDetector.depth_map := depth_map |}.
Proof.
  intros Hdm Hknown Hperm.
  pose proof (known_classes_permutation _ _ _ Hperm Hknown) as Hknown'.
  split; [|split].
  - unfold ROIManager.check_collision_alert.
    rewrite !collision_results_loop_total by assumption.
    rewrite (existsb_permutation _ _ _ Hperm). reflexivity.
  - unfold WarningSystem.get_close_vehicles_by_side.
    rewrite !close_results_loop_total by assumption.
    do 4 eexists. split; [reflexivity|]. split; [reflexivity|].
    split; apply Permutation_map, filter_permutation, Hperm.
  - intros ws. rewrite !process_frame_total by assumption.
    cbn [RoadObjectDetector.depth_map RoadObjectDetector.results
         RoadObjectDetector.class_names RoadObjectDetector.warning_system
         RoadObjectDetector.frame_width RoadObjectDetector.frame_height].
    rewrite (existsb_permutation _ _ _ Hperm).
    f_equal. f_equal. f_equal.
    apply update_warning_persistence_truthy;
      apply truthy_permutation, Permutation_map, filter_permutation,
        Permutation_sym, Hperm.
Qed.

Lemma detection_order_is_irrelevant_witness :
  ROIManager.check_collision_alert
    [ {| boxes := Some [car_in_roi] |}; {| boxes := Some [car_on_left; traffic_light] |} ]
    (Some depth_700) 800 600 two_names
  = ROIManager.check_collision_alert
      [ {| boxes := Some [traffic_light; car_on_left; car_in_roi] |} ]
      (Some depth_700) 800 600 two_names.
Proof.
  apply (detection_order_is_irrelevant
           [ {| boxes := Some [traffic_light; car_on_left; car_in_roi] |} ]
           [ {| boxes := Some [car_in_roi] |};
             {| boxes := Some [car_on_left; traffic_light] |} ]
           (Some depth_700) 800%nat 600%nat two_names).
  - apply depth_700_nonempty.
  - apply known_classes_singleton.
    repeat constructor; [apply two_names_traffic_light | apply two_names_car
                         | apply two_names_car].
  - simpl.
    apply perm_trans with [traffic_light; car_in_roi; car_on_left].
    + apply perm_skip, perm_swap.
    + apply perm_trans with [car_in_roi; traffic_light; car_on_left].
      * apply perm_swap.
      * apply perm_skip, perm_swap.
Defined.

(** X9.  More detections never clear a collision: if
    [check_collision_alert] returns [True] on some detections, it returns
    [True] on every results object that contains them (all class ids being
    keys and the depth map being usable). *)
Theorem more_detections_keep_collision (results results' : list Result)
    (depth_map : option ndarray) (frame_width frame_height : Z)
    (class_names : gmap Z string) :
  usable depth_map ->
  known_classes class_names results' ->
  (forall box, In box (detections results) -> In box (detections results')) ->
  ROIManager.check_collision_alert results depth_map frame_width frame_height
    class_names = Ok true ->
  ROIManager.check_collision_alert results' depth_map frame_width frame_height
    class_names = Ok true.
Proof.
  intros Hdm Hknown Hincl E. unfold ROIManager.check_collision_alert in *.
  apply collision_results_loop_sound in E. destruct E as [E|E]; [discriminate|].
  rewrite collision_results_loop_total by assumption.
  apply existsb_exists in E. destruct E as [box [Hin Hhit]].
  rewrite orb_false_r. f_equal. apply existsb_exists.
  exists box. split; [apply Hincl, Hin | exact Hhit].
Qed.

Lemma more_detections_keep_collision_witness :
  ROIManager.check_collision_alert
    [ {| boxes := Some [traffic_light; car_on_left; car_in_roi] |} ]
    (Some depth_700) 800 600 two_names
  = Ok true.
Proof.
  apply (more_detections_keep_collision
           [ {| boxes := Some [car_in_roi] |} ]
           [ {| boxes := Some [traffic_light; car_on_left; car_in_roi] |} ]
           (Some depth_700) 800 600 two_names).
  - apply depth_700_nonempty.
  - apply known_classes_singleton.
    repeat constructor; [apply two_names_traffic_light | apply two_names_car
                         | apply two_names_car].
  - intros box Hin. simpl in Hin. destruct Hin as [<-|[]]. simpl. tauto.
  - vm_compute. reflexivity.
Defined.






(** ** Scenes of uniform depth *)

Lemma median_depth_exceeds_b_far (dm : ndarray) (box : Box) (sample_size t : Z)
    (lo hi : Q) :
  nonempty dm -> 1 <= sample_size -> values_between dm lo hi ->
  (hi <= inject_Z t)%Q ->
  median_depth_exceeds_b (Some dm) box sample_size t = false.
Proof.
  intros Hne Hs Hall Hhi. unfold median_depth_exceeds_b.
  destruct (sampled_median_bounds dm (center_x box) (center_y box) sample_size
              lo hi Hne Hs Hall) as [m [-> [_ Hm]]].
  simpl. apply not_true_iff_false. rewrite Qgtb_true_iff.
  apply Qle_not_lt. apply Qle_trans with hi; assumption.
Qed.


Lemma filter_none {A : Type} (f : A -> bool) (l : list A) :
  (forall x, f x = false) -> List.filter f l = [].
Proof.
  intros Hf. induction l as [|x l IH]; simpl; [reflexivity|].
  rewrite Hf. exact IH.
Qed.

Lemma existsb_none {A : Type} (f : A -> bool) (l : list A) :
  (forall x, f x = false) -> existsb f l = false.
Proof.
  intros Hf. induction l as [|x l IH]; simpl; [reflexivity|].
  rewrite Hf. exact IH.
Qed.

(** X11.  A scene without near values is silent: if no value of the depth map
    exceeds [CLOSE_DEPTH_THRESHOLD], both close lists are empty, and if none
    exceeds [COLLISION_THRESHOLD], [check_collision_alert] returns [False],
    whatever the detections (with known class ids). *)
Theorem far_scene_is_silent (results : list Result) (dm : ndarray)
    (frame_width frame_height : Z) (class_names : gmap Z string) (lo hi : Q) :
  known_classes class_names results ->
  nonempty dm ->
  values_between dm lo hi ->
  ((hi <= inject_Z CLOSE_DEPTH_THRESHOLD)%Q ->
   WarningSystem.get_close_vehicles_by_side results (Some dm) frame_width class_names
   = Ok ([], []))
  /\ ((hi <= inject_Z COLLISION_THRESHOLD)%Q ->
      ROIManager.check_collision_alert results (Some dm) frame_width frame_height
        class_names = Ok false).
Proof.
  intros Hknown Hne Hall. split; intros Hhi.
  - unfold WarningSystem.get_close_vehicles_by_side.
    rewrite (close_results_loop_total (Some dm) _ _ _ [] [] Hne Hknown).
    rewrite !filter_none; [reflexivity| |]; intros box; unfold close_b;
      rewrite (median_depth_exceeds_b_far dm box 5 _ lo hi Hne ltac:(lia) Hall Hhi),
        andb_false_r; reflexivity.
  - unfold ROIManager.check_collision_alert.
    rewrite (collision_results_loop_total (Some dm) _ _ _ _ false Hne Hknown).
    rewrite existsb_none; [reflexivity|]. intros box. unfold collision_condition_b.
    assert (Hs : 1 <= DEPTH_COLLISION_SAMPLE_SIZE)
      by (unfold DEPTH_COLLISION_SAMPLE_SIZE; lia).
    rewrite (median_depth_exceeds_b_far dm box _ _ lo hi Hne Hs Hall Hhi),
      andb_false_r. reflexivity.
Qed.

Lemma depth_700_between : values_between depth_700 700 700.
Proof. intros yx _. unfold value_at, depth_700. simpl. split; apply Qle_refl. Qed.


Lemma far_scene_is_silent_witness :
  WarningSystem.get_close_vehicles_by_side
    [ {| boxes := Some [car_in_roi; car_on_left] |} ] (Some depth_700) 800 two_names
  = Ok ([], []).
Proof.
  destruct (far_scene_is_silent
              [ {| boxes := Some [car_in_roi; car_on_left] |} ] depth_700 800 600
              two_names 700 700) as [H _].
  - apply known_classes_singleton. repeat constructor; apply two_names_car.
  - apply depth_700_nonempty.
  - apply depth_700_between.
  - apply H. vm_compute. discriminate.
Defined.



(** ** The three counters over a session *)

(** X13.  The two persistence updates of a frame commute, and each of the
    left and right counters depends only on its own list: the three counters
    are independent of one another. *)
Theorem counter_updates_commute (ws : WarningSystem.t) (l r : list string)
    (collision_detected : bool) :
  WarningSystem.update_collision_persistence
    (WarningSystem.update_warning_persistence ws l r) collision_detected
  = WarningSystem.update_warning_persistence
      (WarningSystem.update_collision_persistence ws collision_detected) l r
  /\ WarningSystem.left_warning_frames
       (WarningSystem.update_warning_persistence ws l r)
     = WarningSystem.left_warning_frames (WarningSystem.update_warning_persistence ws l [])
  /\ WarningSystem.right_warning_frames
       (WarningSystem.update_warning_persistence ws l r)
     = WarningSystem.right_warning_frames (WarningSystem.update_warning_persistence ws [] r).
Proof.
  unfold WarningSystem.update_warning_persistence,
    WarningSystem.update_collision_persistence.
  destruct collision_detected, (WarningSystem.truthy l), (WarningSystem.truthy r);
    repeat split.
Qed.

Lemma run_count_snoc (signals : list bool) (s : bool) (c0 : Z) :
  run_count (signals ++ [s]) c0 = if s then run_count signals c0 + 1 else 0.
Proof. unfold run_count. rewrite fold_left_app. reflexivity. Qed.

Lemma run_count_nonneg (signals : list bool) (c0 : Z) :
  0 <= c0 -> 0 <= run_count signals c0.
Proof.
  revert c0. induction signals as [|s signals IH]; intros c0 Hc; simpl; [exact Hc|].
  apply IH. destruct s; lia.
Qed.

Lemma ends_with_positives_snoc (signals : list bool) (s : bool) (n : nat) :
  ends_with_positives (signals ++ [s]) (S n)
  <-> s = true /\ ends_with_positives signals n.
Proof.
  unfold ends_with_positives. split.
  - intros [earlier E].
    change (repeat true (S n)) with (true :: repeat true n) in E.
    rewrite (repeat_cons n true) in E.
    rewrite app_assoc in E. apply app_inj_tail in E. destruct E as [E ->].
    split; [reflexivity | exists earlier; exact E].
  - intros [-> [earlier ->]]. exists earlier.
    rewrite <- app_assoc. f_equal. symmetry. apply (repeat_cons n true).
Qed.

(** From count 0, the count has reached [n] iff the last [n] signals were
    positive. *)
Lemma run_count_reaches (signals : list bool) (n : nat) :
  Z.of_nat n <= run_count signals 0 <-> ends_with_positives signals n.
Proof.
  revert n. induction signals as [|s signals IH] using rev_ind; intros n.
  - simpl. split.
    + intros H. assert (n = 0%nat) by lia. subst. exists []. reflexivity.
    + intros [earlier E]. symmetry in E. apply app_eq_nil in E.
      destruct E as [_ E]. destruct n; [simpl; lia | discriminate].
  - rewrite run_count_snoc. destruct n as [|n].
    + split.
      * intros _. exists (signals ++ [s]). simpl. rewrite app_nil_r. reflexivity.
      * intros _. pose proof (run_count_nonneg signals 0 ltac:(lia)).
        destruct s; simpl; lia.
    + rewrite ends_with_positives_snoc, <- IH. destruct s.
      * split; [intros H; split; [reflexivity | lia] | intros [_ H]; lia].
      * split; [lia | intros [H _]; discriminate].
Qed.

Lemma feed_counts (inputs : list (list string * list string * bool))
    (ws : WarningSystem.t) :
  let ws' := fold_left frame_update inputs ws in
  WarningSystem.left_warning_frames ws'
  = run_count (map left_signal inputs) (WarningSystem.left_warning_frames ws)
  /\ WarningSystem.right_warning_frames ws'
     = run_count (map right_signal inputs) (WarningSystem.right_warning_frames ws)
  /\ WarningSystem.collision_alert_frames ws'
     = run_count (map collision_signal inputs) (WarningSystem.collision_alert_frames ws)
  /\ WarningSystem.warning_threshold ws' = WarningSystem.warning_threshold ws
  /\ WarningSystem.collision_alert_threshold ws'
     = WarningSystem.collision_alert_threshold ws.
Proof.
  revert ws. induction inputs as [|[[l r] s] inputs IH]; intros ws.
  - simpl. repeat split.
  - cbn [fold_left map]. specialize (IH (frame_update ws (l, r, s))).
    cbv zeta in IH. destruct IH as [E1 [E2 [E3 [E4 E5]]]].
    cbv zeta. rewrite E1, E2, E3, E4, E5.
    unfold frame_update, left_signal, right_signal, collision_signal, run_count.
    cbn [fst snd fold_left].
    unfold WarningSystem.update_warning_persistence,
      WarningSystem.update_collision_persistence.
    destruct s, (WarningSystem.truthy l), (WarningSystem.truthy r); repeat split.
Qed.

(** X14.  Fed frame after frame from counts 0, each counter fires exactly
    when the last [threshold] signals it received were all positive: the left
    and right warnings when the last lists of their side were non-empty, the
    collision alert when the last collision flags were true. *)
Theorem counters_fire_on_trailing_runs
    (inputs : list (list string * list string * bool)) (ws : WarningSystem.t)
    (n_warning n_collision : nat) :
  WarningSystem.left_warning_frames ws = 0 ->
  WarningSystem.right_warning_frames ws = 0 ->
  WarningSystem.collision_alert_frames ws = 0 ->
  WarningSystem.warning_threshold ws = Z.of_nat n_warning ->
  WarningSystem.collision_alert_threshold ws = Z.of_nat n_collision ->
  (WarningSystem.shows_left_warning (fold_left frame_update inputs ws) = true
   <-> ends_with_positives (map left_signal inputs) n_warning)
  /\ (WarningSystem.shows_right_warning (fold_left frame_update inputs ws) = true
      <-> ends_with_positives (map right_signal inputs) n_warning)
  /\ (WarningSystem.should_show_collision_alert (fold_left frame_update inputs ws) = true
      <-> ends_with_positives (map collision_signal inputs) n_collision).
Proof.
  intros Hl Hr Hc Hw Ha.
  destruct (feed_counts inputs ws) as [E1 [E2 [E3 [E4 E5]]]]. cbv zeta in *.
  unfold WarningSystem.shows_left_warning, WarningSystem.shows_right_warning,
    WarningSystem.should_show_collision_alert.
  rewrite !Z.geb_le, E1, E2, E3, E4, E5, Hl, Hr, Hc, Hw, Ha.
  repeat split; apply run_count_reaches.
Qed.

Lemma counters_fire_on_trailing_runs_witness :
  WarningSystem.should_show_collision_alert
    (fold_left frame_update
       [ ([], [], true); (["car"%string], [], false); ([], [], true); ([], [], true) ]
       WarningSystem.init)
  = true.
Proof.
  apply (counters_fire_on_trailing_runs
           [ ([], [], true); (["car"%string], [], false); ([], [], true); ([], [], true) ]
           WarningSystem.init 3 2); try reflexivity.
  exists [true; false]. reflexivity.
Defined.

(** ** Sessions *)

Lemma process_frame_input (class_names : gmap Z string) (ws : WarningSystem.t)
    (frame : RoadObjectDetector.Frame) :
  processable class_names frame ->
  RoadObjectDetector.process_frame
    {| RoadObjectDetector.class_names := class_names;
       RoadObjectDetector.warning_system := ws |} frame
  = Ok {| RoadObjectDetector.class_names := class_names;
          RoadObjectDetector.warning_system :=
            frame_update ws (frame_input class_names frame) |}.
Proof.
  intros [Hdm Hknown].
  rewrite process_frame_total by assumption. reflexivity.
Qed.





Lemma run_count_negatives (signals : list bool) (c0 : Z) :
  Forall (fun s => s = false) signals -> signals <> [] -> run_count signals c0 = 0.
Proof.
  intros Hall Hne. destruct signals as [|s signals] using rev_ind; [congruence|].
  rewrite run_count_snoc. apply Forall_app in Hall. destruct Hall as [_ Hs].
  inversion Hs; subst. reflexivity.
Qed.

Lemma frame_input_without_depth (class_names : gmap Z string) (h w : nat)
    (results : list Result) :
  frame_input class_names
    {| RoadObjectDetector.frame_height := h;
       RoadObjectDetector.frame_width := w;
       RoadObjectDetector.results := results;
       RoadObjectDetector.depth_map := None |}
  = ([], [], false).
Proof.
  unfold frame_input. cbn [RoadObjectDetector.depth_map RoadObjectDetector.results].
  rewrite !nothing_close_without_depth, no_collision_without_depth. reflexivity.
Qed.

Lemma detect_loop_without_depth (class_names : gmap Z string)
    (frames : list RoadObjectDetector.Frame) (ws : WarningSystem.t) :
  Forall (fun frame => known_classes class_names (RoadObjectDetector.results frame))
         frames ->
  Session.detect_loop
    {| RoadObjectDetector.class_names := class_names;
       RoadObjectDetector.warning_system := ws |} frames false
  = Ok {| RoadObjectDetector.class_names := class_names;
          RoadObjectDetector.warning_system :=
            fold_left frame_update (map (fun _ => ([], [], false)) frames) ws |}.
Proof.
  intros Hall. revert ws. induction Hall as [|frame frames Hf _ IH]; intros ws.
  - reflexivity.
  - cbn [Session.detect_loop map fold_left]. unfold Session._process_frame.
    rewrite process_frame_input by (split; [exact I | exact Hf]).
    rewrite frame_input_without_depth. cbn [bind]. apply IH.
Qed.

(** X16.  A session without depth estimation ([use_depth] false) of at least
    one frame, with known class ids, runs to its end with all three counters
    at 0; with positive thresholds no warning and no alert is shown, whatever
    the depth maps and detections of the frames. *)
Theorem session_without_depth_is_silent (class_names : gmap Z string)
    (frames : list RoadObjectDetector.Frame) (self : RoadObjectDetector.t) :
  RoadObjectDetector.class_names self = class_names ->
  Forall (fun frame => known_classes class_names (RoadObjectDetector.results frame))
         frames ->
  frames <> [] ->
  exists after : RoadObjectDetector.t,
    Session.detect_loop self frames false = Ok after
    /\ WarningSystem.left_warning_frames (RoadObjectDetector.warning_system after) = 0
    /\ WarningSystem.right_warning_frames (RoadObjectDetector.warning_system after) = 0
    /\ WarningSystem.collision_alert_frames (RoadObjectDetector.warning_system after) = 0
    /\ (0 < WarningSystem.warning_threshold (RoadObjectDetector.warning_system self) ->
        RoadObjectDetector.show_left_warning after = false
        /\ RoadObjectDetector.show_right_warning after = false)
    /\ (0 < WarningSystem.collision_alert_threshold
              (RoadObjectDetector.warning_system self) ->
        RoadObjectDetector.show_collision_alert after = false).
Proof.
  intros Hnames Hall Hne. destruct self as [names ws]. simpl in Hnames. subst names.
  eexists. split; [apply (detect_loop_without_depth class_names frames ws Hall)|].
  cbn [RoadObjectDetector.warning_system].
  destruct (feed_counts (map (fun _ => ([], [], false)) frames : list (list string * list string * bool)) ws)
    as [E1 [E2 [E3 [E4 E5]]]]. cbv zeta in *.
  assert (Hz : forall (f : list string * list string * bool -> bool) c0,
             f ([], [], false) = false ->
             run_count (map f (map (fun _ => ([], [], false)) frames)) c0 = 0).
  { intros f c0 Hf. apply run_count_negatives.
    - rewrite map_map. apply List.Forall_forall. intros s Hs.
      apply in_map_iff in Hs. destruct Hs as [frame [<- _]]. exact Hf.
    - destruct frames; [congruence | discriminate]. }
  rewrite Hz in E1, E2, E3 by reflexivity.
  unfold RoadObjectDetector.show_collision_alert, RoadObjectDetector.show_left_warning,
    RoadObjectDetector.show_right_warning.
  cbn [RoadObjectDetector.warning_system].
  unfold WarningSystem.shows_left_warning, WarningSystem.shows_right_warning,
    WarningSystem.should_show_collision_alert.
  rewrite E1, E2, E3, E4, E5.
  split; [reflexivity|]. split; [reflexivity|]. split; [reflexivity|].
  split.
  - intros Hpos. split; rewrite Z.geb_leb; apply Z.leb_gt; exact Hpos.
  - intros Hpos. rewrite Z.geb_leb. apply Z.leb_gt. exact Hpos.
Qed.

Lemma session_without_depth_is_silent_witness :
  exists after : RoadObjectDetector.t,
    Session.detect_loop (RoadObjectDetector.init two_names)
      [frame_with_car depth_1500; frame_with_car depth_1500; frame_with_car depth_1500]
      false = Ok after
    /\ RoadObjectDetector.show_collision_alert after = false.
Proof.
  destruct (session_without_depth_is_silent two_names
              [frame_with_car depth_1500; frame_with_car depth_1500;
               frame_with_car depth_1500]
              (RoadObjectDetector.init two_names))
    as [after [E [_ [_ [_ [_ H]]]]]].
  - reflexivity.
  - repeat constructor; apply known_classes_singleton; repeat constructor;
      apply two_names_car.
  - discriminate.
  - exists after. split; [exact E|]. apply H. reflexivity.
Defined.

(** ** A frame is processed as a whole *)

Section Unqualified.
Variables (dm : ndarray) (frame_width frame_height : Z) (class_names : gmap Z string).
Hypothesis dm_empty : ~ nonempty dm.

(** On an array without rows or columns the classifier returns only if no
  box passes the filter. *)
Lemma close_boxes_loop_returns_unqualified (bs : list Box) (l r : list string) :
returns (WarningSystem.close_boxes_loop (Some dm) frame_width class_names bs l r) ->
forall box, In box bs -> qualifies_b box = false.
Proof.
revert l r. induction bs as [|box bs IH]; intros l r Hret b Hin; [destruct Hin|].
simpl WarningSystem.close_boxes_loop in Hret.
destruct (xyxy box) as [[[x1 y1] x2] y2].
destruct (dict_getitem class_names (cls box)) as [nm|e];
  [|destruct Hret as [? Hret]; discriminate].
cbn [bind] in Hret. unfold qualifies_b.
destruct (road_relevant (conf box) (cls box)) eqn:Erel.
- rewrite (sample_depth_values_empty _ _ _ dm_empty) in Hret.
  destruct Hret as [? Hret]. discriminate.
- destruct Hin as [<-|Hin]; [exact Erel | exact (IH _ _ Hret b Hin)].
Qed.

Lemma close_results_loop_returns_unqualified (results : list Result) (l r : list string) :
returns (WarningSystem.close_results_loop (Some dm) frame_width class_names
           results l r) ->
forall box, In box (detections results) -> qualifies_b box = false.
Proof.
revert l r. induction results as [|[[bs|]] rest IH]; intros l r Hret b Hin.
- destruct Hin.
- simpl WarningSystem.close_results_loop in Hret.
  destruct (WarningSystem.close_boxes_loop _ _ _ bs l r) as [lr|e] eqn:Ebs;
    [|destruct Hret as [? Hret]; discriminate].
  cbn [bind] in Hret.
  rewrite detections_cons_boxes in Hin. apply in_app_or in Hin.
  destruct Hin as [Hin|Hin].
  + apply (close_boxes_loop_returns_unqualified bs l r);
      [eexists; exact Ebs | exact Hin].
  + exact (IH _ _ Hret b Hin).
- simpl WarningSystem.close_results_loop in Hret.
  rewrite detections_cons_none in Hin. exact (IH _ _ Hret b Hin).
Qed.
End Unqualified.

Section NothingQualifies.
Variables (depth_map : option ndarray) (frame_width frame_height : Z)
        (class_names : gmap Z string).

Lemma collision_boxes_loop_unqualified (bs : list Box) (collision_detected : bool) :
(forall box, In box bs -> is_Some (class_names !! cls box)) ->
(forall box, In box bs -> qualifies_b box = false) ->
ROIManager.collision_boxes_loop depth_map frame_width frame_height class_names
  bs collision_detected = Ok collision_detected.
Proof.
induction bs as [|box bs IH]; intros Hknown Hunq; [reflexivity|].
simpl ROIManager.collision_boxes_loop.
destruct (xyxy box) as [[[x1 y1] x2] y2].
rewrite (dict_getitem_known _ _ (Hknown box (or_introl eq_refl))). cbn [bind].
pose proof (Hunq box (or_introl eq_refl)) as Hb. unfold qualifies_b in Hb.
rewrite Hb. apply IH; intros b Hin; [apply Hknown | apply Hunq]; right; exact Hin.
Qed.

Lemma collision_results_loop_unqualified (results : list Result)
  (collision_detected : bool) :
known_classes class_names results ->
(forall box, In box (detections results) -> qualifies_b box = false) ->
ROIManager.collision_results_loop depth_map frame_width frame_height class_names
  results collision_detected = Ok collision_detected.
Proof.
induction results as [|[[bs|]] rest IH]; intros Hknown Hunq.
- reflexivity.
- apply known_classes_cons_boxes in Hknown. destruct Hknown as [Hbs Hrest].
  simpl ROIManager.collision_results_loop.
  rewrite collision_boxes_loop_unqualified.
  + cbn [bind]. apply IH; [exact Hrest|].
    intros b Hin. apply Hunq. rewrite detections_cons_boxes.
    apply in_or_app. right. exact Hin.
  + exact Hbs.
  + intros b Hin. apply Hunq. rewrite detections_cons_boxes.
    apply in_or_app. left. exact Hin.
- apply known_classes_cons_none in Hknown.
  simpl ROIManager.collision_results_loop. apply IH; [exact Hknown|].
  intros b Hin. apply Hunq. rewrite detections_cons_none. exact Hin.
Qed.

Lemma close_boxes_loop_unqualified (bs : list Box) (l r : list string) :
(forall box, In box bs -> is_Some (class_names !! cls box)) ->
(forall box, In box bs -> qualifies_b box = false) ->
WarningSystem.close_boxes_loop depth_map frame_width class_names bs l r = Ok (l, r).
Proof.
induction bs as [|box bs IH]; intros Hknown Hunq; [reflexivity|].
simpl WarningSystem.close_boxes_loop.
destruct (xyxy box) as [[[x1 y1] x2] y2].
rewrite (dict_getitem_known _ _ (Hknown box (or_introl eq_refl))). cbn [bind].
pose proof (Hunq box (or_introl eq_refl)) as Hb. unfold qualifies_b in Hb.
rewrite Hb. apply IH; intros b Hin; [apply Hknown | apply Hunq]; right; exact Hin.
Qed.

Lemma close_results_loop_unqualified (results : list Result) (l r : list string) :
known_classes class_names results ->
(forall box, In box (detections results) -> qualifies_b box = false) ->
WarningSystem.close_results_loop depth_map frame_width class_names results l r
= Ok (l, r).
Proof.
induction results as [|[[bs|]] rest IH]; intros Hknown Hunq.
- reflexivity.
- apply known_classes_cons_boxes in Hknown. destruct Hknown as [Hbs Hrest].
  simpl WarningSystem.close_results_loop.
  rewrite close_boxes_loop_unqualified.
  + cbn [bind fst snd]. apply IH; [exact Hrest|].
    intros b Hin. apply Hunq. rewrite detections_cons_boxes.
    apply in_or_app. right. exact Hin.
  + exact Hbs.
  + intros b Hin. apply Hunq. rewrite detections_cons_boxes.
    apply in_or_app. left. exact Hin.
- apply known_classes_cons_none in Hknown.
  simpl WarningSystem.close_results_loop. apply IH; [exact Hknown|].
  intros b Hin. apply Hunq. rewrite detections_cons_none. exact Hin.
Qed.
End NothingQualifies.

(** Once the classifier has returned, the collision check on the same
    arguments returns as well. *)
Lemma collision_check_after_classifier (results : list Result)
    (depth_map : option ndarray) (frame_width frame_height : Z)
    (class_names : gmap Z string) :
  returns (WarningSystem.get_close_vehicles_by_side results depth_map frame_width
             class_names) ->
  returns (ROIManager.check_collision_alert results depth_map frame_width frame_height
             class_names).
Proof.
  intros Hret. unfold WarningSystem.get_close_vehicles_by_side in Hret.
  pose proof (close_results_loop_returns _ _ _ _ _ _ Hret) as Hknown.
  unfold ROIManager.check_collision_alert.
  assert (Hcases : usable depth_map
                   \/ exists dm, depth_map = Some dm /\ ~ nonempty dm).
  { destruct depth_map as [dm|]; [|left; exact I].
    destruct (nonempty_dec dm) as [H|H]; [left; exact H | right; eauto]. }
  destruct Hcases as [Hdm | [dm [-> Hempty]]].
  - rewrite collision_results_loop_total by assumption. eexists. reflexivity.
  - rewrite collision_results_loop_unqualified; [eexists; reflexivity | exact Hknown |].
    exact (close_results_loop_returns_unqualified dm _ _ Hempty _ _ _ Hret).
Qed.

(** X17.  A frame is processed as a whole: the per-frame decision raises
    exactly the exception that [get_close_vehicles_by_side] raises, before any
    counter is written, and returns exactly when that call returns; the
    collision check that follows it cannot raise. *)
Theorem frame_is_processed_as_a_whole (self : RoadObjectDetector.t)
    (frame : RoadObjectDetector.Frame) :
  (forall e : exn,
     RoadObjectDetector.process_frame self frame = Raise e
     <-> WarningSystem.get_close_vehicles_by_side
           (RoadObjectDetector.results frame) (RoadObjectDetector.depth_map frame)
           (Z.of_nat (RoadObjectDetector.frame_width frame))
           (RoadObjectDetector.class_names self) = Raise e)
  /\ (returns (RoadObjectDetector.process_frame self frame)
      <-> returns (WarningSystem.get_close_vehicles_by_side
                     (RoadObjectDetector.results frame)
                     (RoadObjectDetector.depth_map frame)
                     (Z.of_nat (RoadObjectDetector.frame_width frame))
                     (RoadObjectDetector.class_names self))).
Proof.
  unfold RoadObjectDetector.process_frame.
  destruct (WarningSystem.get_close_vehicles_by_side _ _ _ _) as [lr|e0] eqn:Eclose.
  - cbn [bind].
    assert (Hcol : returns
              (match RoadObjectDetector.depth_map frame with
               | Some dm =>
                   ROIManager.check_collision_alert (RoadObjectDetector.results frame)
                     (Some dm) (Z.of_nat (RoadObjectDetector.frame_width frame))
                     (Z.of_nat (RoadObjectDetector.frame_height frame))
                     (RoadObjectDetector.class_names self)
               | None => Ok false
               end)).
    { destruct (RoadObjectDetector.depth_map frame) as [dm|] eqn:Edm;
        [|eexists; reflexivity].
      apply collision_check_after_classifier. eexists. exact Eclose. }
    destruct Hcol as [cd ->]. cbn [bind]. split.
    + intros e. split; discriminate.
    + split; intros _; eexists; reflexivity.
  - cbn [bind]. split.
    + intros e. split; intros H; inversion H; reflexivity.
    + split; intros [? H]; discriminate.
Qed.

Lemma frame_is_processed_as_a_whole_witness :
  RoadObjectDetector.process_frame (RoadObjectDetector.init two_names)
    frame_with_stray_box = Raise (KeyError 99)
  <-> WarningSystem.get_close_vehicles_by_side
        [ {| boxes := Some [stray_box; car_in_roi] |} ] (Some depth_700) 800 two_names
      = Raise (KeyError 99).
Proof.
  apply (frame_is_processed_as_a_whole (RoadObjectDetector.init two_names)
           frame_with_stray_box).
Defined.

Lemma filter_none_in {A : Type} (f : A -> bool) (l : list A) :
  (forall x, In x l -> f x = false) -> List.filter f l = [].
Proof.
  induction l as [|x l IH]; intros Hf; simpl; [reflexivity|].
  rewrite (Hf x (or_introl eq_refl)). apply IH. intros y Hy. apply Hf. right. exact Hy.
Qed.

Lemma filter_sides_length {A : Type} (f side : A -> bool) (l : list A) :
  (length (List.filter (fun x => f x && side x) l)
   + length (List.filter (fun x => f x && negb (side x)) l) <= length l)%nat.
Proof.
  induction l as [|x l IH]; simpl; [lia|].
  destruct (f x), (side x); simpl; lia.
Qed.

(** Whenever the classifier returns, its two lists are those of the close
    detections of each side. *)
Lemma close_lists_when_returned (results : list Result) (depth_map : option ndarray)
    (frame_width : Z) (class_names : gmap Z string) (l r : list string) :
  WarningSystem.get_close_vehicles_by_side results depth_map frame_width class_names
  = Ok (l, r) ->
  known_classes class_names results
  /\ l = map (name_of class_names)
           (List.filter (fun box => close_b depth_map box && on_left frame_width box)
                        (detections results))
  /\ r = map (name_of class_names)
           (List.filter (fun box => close_b depth_map box
                                    && negb (on_left frame_width box))
                        (detections results)).
Proof.
  intros E. unfold WarningSystem.get_close_vehicles_by_side in E.
  assert (Hret : returns (WarningSystem.close_results_loop depth_map frame_width
                            class_names results [] [])) by (eexists; exact E).
  pose proof (close_results_loop_returns _ _ _ _ _ _ Hret) as Hknown.
  split; [exact Hknown|].
  assert (Hcases : usable depth_map
                   \/ exists dm, depth_map = Some dm /\ ~ nonempty dm).
  { destruct depth_map as [dm|]; [|left; exact I].
    destruct (nonempty_dec dm) as [H|H]; [left; exact H | right; eauto]. }
  destruct Hcases as [Hdm | [dm [-> Hempty]]].
  - rewrite close_results_loop_total in E by assumption.
    inversion E. split; reflexivity.
  - pose proof (close_results_loop_returns_unqualified dm _ _ Hempty _ _ _ Hret)
      as Hunq.
    rewrite close_results_loop_unqualified in E by assumption.
    inversion E. subst.
    rewrite !filter_none_in; [split; reflexivity| |]; intros box Hin; unfold close_b;
      rewrite (Hunq box Hin); reflexivity.
Qed.

(** X18.  Whenever [get_close_vehicles_by_side] returns, every class id was a
    key of [class_names], the two lists together have at most one entry per
    detection, every entry is the name of a detection that passes the
    confidence and class filter, and without a depth map both lists are
    empty. *)
Theorem close_lists_are_sound (results : list Result) (depth_map : option ndarray)
    (frame_width : Z) (class_names : gmap Z string) (l r : list string) :
  WarningSystem.get_close_vehicles_by_side results depth_map frame_width class_names
  = Ok (l, r) ->
  known_classes class_names results
  /\ (length l + length r <= length (detections results))%nat
  /\ (forall name, In name l \/ In name r ->
        exists box, In box (detections results) /\ qualifies box
                    /\ class_names !! cls box = Some name)
  /\ (depth_map = None -> l = [] /\ r = []).
Proof.
  intros E. apply close_lists_when_returned in E. destruct E as [Hknown [-> ->]].
  split; [exact Hknown|]. split; [|split].
  - rewrite !length_map. apply filter_sides_length.
  - assert (Hone : forall side name,
              In name (map (name_of class_names)
                         (List.filter (fun box => close_b depth_map box && side box)
                                      (detections results))) ->
              exists box, In box (detections results) /\ qualifies box
                          /\ class_names !! cls box = Some name).
    { intros side name Hin. apply in_map_iff in Hin. destruct Hin as [box [<- Hin]].
      apply filter_In in Hin. destruct Hin as [Hin Hc].
      apply andb_true_iff in Hc. destruct Hc as [Hc _].
      unfold close_b in Hc. apply andb_true_iff in Hc. destruct Hc as [Hq _].
      exists box. split; [exact Hin|]. split; [apply qualifies_b_iff, Hq|].
      destruct (Hknown box Hin) as [nm Hnm]. unfold name_of. rewrite Hnm. reflexivity. }
    intros name [Hin|Hin]; eapply Hone; exact Hin.
  - intros ->. rewrite !nothing_close_without_depth. split; reflexivity.
Qed.

Lemma close_lists_are_sound_witness :
  (length ["car"%string] + length ["car"%string]
   <= length (detections [ {| boxes := Some [car_in_roi; traffic_light; car_on_left] |} ]))%nat.
Proof.
  apply (close_lists_are_sound
           [ {| boxes := Some [car_in_roi; traffic_light; car_on_left] |} ]
           (Some depth_1500) 800 two_names ["car"%string] ["car"%string]).
  vm_compute. reflexivity.
Defined.

(** ** Drawing the detections *)

Lemma bounding_boxes_app (calls calls' : list DrawCall) :
  bounding_boxes (calls ++ calls') = bounding_boxes calls ++ bounding_boxes calls'.
Proof.
  induction calls as [|c calls IH]; [reflexivity|].
  destruct c as [p1 p2 col th|]; simpl; [|exact IH].
  destruct th as [|p|p]; try exact IH.
  destruct p as [p|p|]; try exact IH.
  destruct p as [p|p|]; try exact IH.
  rewrite IH. reflexivity.
Qed.

Section DrawLoops.
Variables (format_2f : npfloat -> string) (getTextSize : string -> Z * Z).
Variables (depth_map : option ndarray) (class_names : option (gmap Z string)).

(** The loop returns when every name can be found and the depth map can be
  sampled for the boxes that pass the filter. *)
Lemma draw_boxes_loop_returns (bs : list Box) (calls : list DrawCall) :
(forall box, In box bs -> returns (Visualizer.label_name class_names (cls box))) ->
(forall box, In box bs -> qualifies_b box = true -> usable depth_map) ->
returns (Visualizer.draw_boxes_loop format_2f getTextSize depth_map class_names
           bs calls).
Proof.
revert calls. induction bs as [|box bs IH]; intros calls Hname Hdepth.
- eexists. reflexivity.
- assert (Hn : forall b, In b bs ->
                 returns (Visualizer.label_name class_names (cls b)))
    by (intros b Hb; apply Hname; right; exact Hb).
  assert (Hd : forall b, In b bs -> qualifies_b b = true -> usable depth_map)
    by (intros b Hb; apply Hdepth; right; exact Hb).
  simpl Visualizer.draw_boxes_loop.
  destruct (xyxy box) as [[[x1 y1] x2] y2].
  destruct (Hname box (or_introl eq_refl)) as [name ->]. cbn [bind].
  pose proof (Hdepth box (or_introl eq_refl)) as Hu. unfold qualifies_b in Hu.
  destruct (road_relevant (conf box) (cls box)); [|apply IH; assumption].
  specialize (Hu eq_refl).
  destruct depth_map as [dm|]; cbn [bind]; [|apply IH; assumption].
  rewrite (sample_depth_values_nonempty dm _ _ _ Hu). cbn [bind].
  destruct (np_gt _ CLOSE_DEPTH_THRESHOLD); cbn [bind]; apply IH; assumption.
Qed.

Lemma draw_results_loop_returns (results : list Result) (calls : list DrawCall) :
(forall box, In box (detections results) ->
             returns (Visualizer.label_name class_names (cls box))) ->
(forall box, In box (detections results) -> qualifies_b box = true ->
             usable depth_map) ->
returns (Visualizer.draw_results_loop format_2f getTextSize depth_map class_names
           results calls).
Proof.
revert calls. induction results as [|[[bs|]] rest IH]; intros calls Hname Hdepth.
- eexists. reflexivity.
- simpl Visualizer.draw_results_loop.
  destruct (draw_boxes_loop_returns bs calls) as [calls' ->].
  + intros b Hb. apply Hname. rewrite detections_cons_boxes.
    apply in_or_app. left. exact Hb.
  + intros b Hb. apply Hdepth. rewrite detections_cons_boxes.
    apply in_or_app. left. exact Hb.
  + cbn [bind]. apply IH.
    * intros b Hb. apply Hname. rewrite detections_cons_boxes.
      apply in_or_app. right. exact Hb.
    * intros b Hb. apply Hdepth. rewrite detections_cons_boxes.
      apply in_or_app. right. exact Hb.
- simpl Visualizer.draw_results_loop. apply IH.
  + intros b Hb. apply Hname. rewrite detections_cons_none. exact Hb.
  + intros b Hb. apply Hdepth. rewrite detections_cons_none. exact Hb.
Qed.

(** When the loop returns, it has drawn one bounding box, one label
  background and one label for each box that passes the filter, in order. *)
Lemma draw_boxes_loop_trace (bs : list Box) (calls calls' : list DrawCall) :
Visualizer.draw_boxes_loop format_2f getTextSize depth_map class_names bs calls
= Ok calls' ->
bounding_boxes calls'
= bounding_boxes calls ++ map corners (List.filter qualifies_b bs)
/\ length calls' = (length calls + 3 * length (List.filter qualifies_b bs))%nat.
Proof.
revert calls. induction bs as [|box bs IH]; intros calls.
- simpl. intros E. inversion E. subst. rewrite app_nil_r. split; [reflexivity | lia].
- simpl Visualizer.draw_boxes_loop. simpl List.filter.
  destruct (xyxy box) as [[[x1 y1] x2] y2] eqn:Exy.
  destruct (Visualizer.label_name class_names (cls box)) as [name|e];
    [|discriminate].
  cbn [bind].
  destruct (road_relevant (conf box) (cls box)) eqn:Erel;
    (assert (Hq : qualifies_b box = road_relevant (conf box) (cls box))
       by reflexivity; rewrite Hq, Erel); [|apply IH].
  destruct (match depth_map with Some _ => _ | None => _ end) as [info|e];
    [|discriminate].
  cbn [bind]. intros E. apply IH in E. destruct E as [E1 E2].
  rewrite E1, E2, length_app, bounding_boxes_app. cbn [map length].
  split; [|lia].
  rewrite <- app_assoc. f_equal. cbn [bounding_boxes app].
  unfold corners. rewrite Exy. reflexivity.
Qed.

Lemma draw_results_loop_trace (results : list Result) (calls calls' : list DrawCall) :
Visualizer.draw_results_loop format_2f getTextSize depth_map class_names results calls
= Ok calls' ->
bounding_boxes calls'
= bounding_boxes calls ++ map corners (List.filter qualifies_b (detections results))
/\ length calls'
   = (length calls + 3 * length (List.filter qualifies_b (detections results)))%nat.
Proof.
revert calls. induction results as [|[[bs|]] rest IH]; intros calls.
- simpl. intros E. inversion E. subst. rewrite app_nil_r. split; [reflexivity | lia].
- simpl Visualizer.draw_results_loop.
  destruct (Visualizer.draw_boxes_loop _ _ _ _ bs calls) as [calls1|e] eqn:Ebs;
    [|discriminate].
  cbn [bind]. intros E. apply IH in E. destruct E as [E1 E2].
  apply draw_boxes_loop_trace in Ebs. destruct Ebs as [B1 B2].
  rewrite E1, E2, B1, B2, detections_cons_boxes, List.filter_app, map_app, length_app.
  split; [rewrite app_assoc; reflexivity | lia].
- simpl Visualizer.draw_results_loop. rewrite detections_cons_none. apply IH.
Qed.
End DrawLoops.

Lemma label_name_known (names : gmap Z string) (class_id : Z) :
  is_Some (names !! class_id) ->
  returns (Visualizer.label_name (Some names) class_id).
Proof.
  intros Hk. unfold Visualizer.label_name.
  destruct (Visualizer.truthy_dict (Some names)); [|eexists; reflexivity].
  rewrite (dict_getitem_known _ _ Hk). eexists. reflexivity.
Qed.

Lemma label_name_fallback (class_names : option (gmap Z string)) (class_id : Z) :
  Visualizer.truthy_dict class_names = false ->
  Visualizer.label_name class_names class_id = Ok ("class_" ++ pretty class_id)%string.
Proof.
  intros Hf. unfold Visualizer.label_name.
  destruct class_names as [names|]; [rewrite Hf|]; reflexivity.
Qed.

(** X19.  Drawing after classifying cannot fail: if
    [get_close_vehicles_by_side] has returned for a frame, then
    [draw_detections] on the same results, depth map and name table returns
    as well, whatever the number formatting and the text sizes. *)
Theorem drawing_follows_classification (format_2f : npfloat -> string)
    (getTextSize : string -> Z * Z) (results : list Result)
    (depth_map : option ndarray) (frame_width : Z) (class_names : gmap Z string) :
  returns (WarningSystem.get_close_vehicles_by_side results depth_map frame_width
             class_names) ->
  returns (Visualizer.draw_detections format_2f getTextSize depth_map
             (Some class_names) results).
Proof.
  intros Hret. unfold WarningSystem.get_close_vehicles_by_side in Hret.
  pose proof (close_results_loop_returns _ _ _ _ _ _ Hret) as Hknown.
  unfold Visualizer.draw_detections. apply draw_results_loop_returns.
  - intros box Hin. apply label_name_known, Hknown, Hin.
  - intros box Hin Hq. destruct depth_map as [dm|]; [|exact I].
    destruct (nonempty_dec dm) as [H|H]; [exact H|].
    rewrite (close_results_loop_returns_unqualified dm _ _ H _ _ _ Hret box Hin) in Hq.
    discriminate.
Qed.

Lemma drawing_follows_classification_witness :
  returns (Visualizer.draw_detections (fun _ => "0.00"%string) (fun _ => (40, 10))
             (Some depth_1500) (Some two_names)
             [ {| boxes := Some [car_in_roi; traffic_light] |} ]).
Proof.
  apply (drawing_follows_classification _ _ _ _ 800).
  eexists. vm_compute. reflexivity.
Defined.

(** X20.  Whenever [draw_detections] returns, it has made three drawing calls
    per detection that passes the confidence and class filter and none for
    the others, and the bounding boxes it has drawn are the truncated corner
    points of exactly those detections, in detection order. *)
Theorem drawn_boxes_are_the_qualifying_detections (format_2f : npfloat -> string)
    (getTextSize : string -> Z * Z) (results : list Result)
    (depth_map : option ndarray) (class_names : option (gmap Z string))
    (calls : list DrawCall) :
  Visualizer.draw_detections format_2f getTextSize depth_map class_names results
  = Ok calls ->
  bounding_boxes calls = map corners (List.filter qualifies_b (detections results))
  /\ length calls = (3 * length (List.filter qualifies_b (detections results)))%nat.
Proof.
  intros E. unfold Visualizer.draw_detections in E.
  apply draw_results_loop_trace in E. exact E.
Qed.

Lemma drawn_boxes_are_the_qualifying_detections_witness :
  exists calls,
    Visualizer.draw_detections (fun _ => "0.00"%string) (fun _ => (40, 10))
      (Some depth_1500) (Some two_names)
      [ {| boxes := Some [car_in_roi; traffic_light] |} ] = Ok calls
    /\ bounding_boxes calls = [((300, 450), (500, 550))].
Proof.
  eexists. split; [vm_compute; reflexivity|].
  apply (drawn_boxes_are_the_qualifying_detections (fun _ => "0.00"%string)
           (fun _ => (40, 10)) [ {| boxes := Some [car_in_roi; traffic_light] |} ]
           (Some depth_1500) (Some two_names)).
  vm_compute. reflexivity.
Defined.

(** ** Drawing without a name table *)

Lemma for_collect_raises {A B : Type} (body : A -> res B) (xs : list A) (e : exn) :
  for_collect body xs = Raise e -> exists x, In x xs /\ body x = Raise e.
Proof.
  induction xs as [|x xs IH]; simpl; [discriminate|].
  destruct (body x) as [v|e0] eqn:Ex.
  - cbn [bind]. destruct (for_collect body xs) as [vs|e1]; [discriminate|].
    cbn [bind]. intros E. inversion E; subst.
    destruct (IH eq_refl) as [y [Hy Ey]]. exists y. split; [right; exact Hy | exact Ey].
  - cbn [bind]. intros E. inversion E; subst. exists x. split; [left; reflexivity|].
    exact Ex.
Qed.

Lemma getitem_raises (a : ndarray) (y x : Z) (e : exn) :
  getitem a y x = Raise e -> e = IndexError.
Proof.
  unfold getitem.
  destruct (norm_index (shape0 a) y) as [i|e0] eqn:Ey.
  - cbn [bind]. destruct (norm_index (shape1 a) x) as [j|e1] eqn:Ex; [discriminate|].
    cbn [bind]. intros E. inversion E; subst. exact (norm_index_raises _ _ _ Ex).
  - cbn [bind]. intros E. inversion E; subst. exact (norm_index_raises _ _ _ Ey).
Qed.

Lemma sample_depth_values_raises (a : ndarray) (center_x center_y sample_size : Z)
    (e : exn) :
  sample_depth_values a center_x center_y sample_size = Raise e -> e = IndexError.
Proof.
  unfold sample_depth_values. intros E. apply for_collect_raises in E.
  destruct E as [[y x] [_ E]]. exact (getitem_raises _ _ _ _ E).
Qed.

Lemma rectangle_colors_app (calls calls' : list DrawCall) :
  rectangle_colors (calls ++ calls')
  = rectangle_colors calls ++ rectangle_colors calls'.
Proof.
  induction calls as [|c calls IH]; [reflexivity|].
  destruct c; simpl; [rewrite IH|]; auto.
Qed.

Section NoNameTable.
Variables (format_2f : npfloat -> string) (getTextSize : string -> Z * Z).
Variables (depth_map : option ndarray) (class_names : option (gmap Z string)).
Hypothesis no_names : Visualizer.truthy_dict class_names = false.

Lemma draw_boxes_loop_no_names (bs : list Box) (calls : list DrawCall) :
(forall e, Visualizer.draw_boxes_loop format_2f getTextSize depth_map class_names
             bs calls = Raise e -> e = IndexError)
/\ (forall calls',
      Visualizer.draw_boxes_loop format_2f getTextSize depth_map class_names
        bs calls = Ok calls' ->
      Forall (fun color => color = Colors.default) (rectangle_colors calls) ->
      Forall (fun color => color = Colors.default) (rectangle_colors calls')).
Proof.
revert calls. induction bs as [|box bs IH]; intros calls.
- simpl. split; [discriminate|]. intros calls' E. inversion E. tauto.
- simpl Visualizer.draw_boxes_loop.
  destruct (xyxy box) as [[[x1 y1] x2] y2].
  rewrite (label_name_fallback _ _ no_names). cbn [bind].
  destruct (road_relevant (conf box) (cls box)); [|apply IH].
  destruct depth_map as [dm|].
  + destruct (sample_depth_values dm _ _ 5) as [vs|e0] eqn:Es.
    * cbn [bind].
      destruct (np_gt _ CLOSE_DEPTH_THRESHOLD); cbn [bind];
        (split; [apply IH|]); intros calls' E Hall;
        apply (proj2 (IH _) _ E); rewrite rectangle_colors_app;
        apply Forall_app; (split; [exact Hall|]); repeat constructor.
    * cbn [bind]. split; [|discriminate].
      intros e E. inversion E; subst. exact (sample_depth_values_raises _ _ _ _ _ Es).
  + cbn [bind]. split; [apply IH|]. intros calls' E Hall.
    apply (proj2 (IH _) _ E). rewrite rectangle_colors_app.
    apply Forall_app. split; [exact Hall|]. repeat constructor.
Qed.

Lemma draw_results_loop_no_names (results : list Result) (calls : list DrawCall) :
(forall e, Visualizer.draw_results_loop format_2f getTextSize depth_map class_names
             results calls = Raise e -> e = IndexError)
/\ (forall calls',
      Visualizer.draw_results_loop format_2f getTextSize depth_map class_names
        results calls = Ok calls' ->
      Forall (fun color => color = Colors.default) (rectangle_colors calls) ->
      Forall (fun color => color = Colors.default) (rectangle_colors calls')).
Proof.
revert calls. induction results as [|[[bs|]] rest IH]; intros calls.
- simpl. split; [discriminate|]. intros calls' E. inversion E. tauto.
- simpl Visualizer.draw_results_loop.
  destruct (draw_boxes_loop_no_names bs calls) as [Hraise Hcolor].
  destruct (Visualizer.draw_boxes_loop _ _ _ _ bs calls) as [calls1|e0]; cbn [bind].
  + split; [apply IH|]. intros calls' E Hall.
    apply (proj2 (IH _) _ E). apply (Hcolor _ eq_refl Hall).
  + split; [|discriminate]. intros e E. inversion E; subst. apply Hraise. reflexivity.
- simpl Visualizer.draw_results_loop. apply IH.
Qed.
End NoNameTable.

(** X21.  Without a name table ([None] or an empty dictionary)
    [draw_detections] never raises [KeyError]: boxes are named
    [class_<id>], it returns whenever the depth map can be sampled, and every
    rectangle it draws has the default colour. *)
Theorem drawing_without_name_table (format_2f : npfloat -> string)
    (getTextSize : string -> Z * Z) (results : list Result)
    (depth_map : option ndarray) (class_names : option (gmap Z string)) :
  class_names = None \/ class_names = Some ∅ ->
  (forall key, Visualizer.draw_detections format_2f getTextSize depth_map class_names
                 results <> Raise (KeyError key))
  /\ (usable depth_map ->
      returns (Visualizer.draw_detections format_2f getTextSize depth_map class_names
                 results))
  /\ (forall calls,
        Visualizer.draw_detections format_2f getTextSize depth_map class_names results
        = Ok calls ->
        Forall (fun color => color = Colors.default) (rectangle_colors calls)).
Proof.
  intros Hnone.
  assert (Hf : Visualizer.truthy_dict class_names = false)
    by (destruct Hnone as [-> | ->]; reflexivity).
  unfold Visualizer.draw_detections.
  destruct (draw_results_loop_no_names format_2f getTextSize depth_map class_names Hf
              results []) as [Hraise Hcolor].
  split; [|split].
  - intros key E. apply Hraise in E. discriminate.
  - intros Hdm. apply draw_results_loop_returns.
    + intros box _. rewrite (label_name_fallback _ _ Hf). eexists. reflexivity.
    + intros box _ _. exact Hdm.
  - intros calls E. apply (Hcolor _ E). constructor.
Qed.

Lemma drawing_without_name_table_witness :
  returns (Visualizer.draw_detections (fun _ => "0.00"%string) (fun _ => (40, 10))
             (Some depth_1500) None
             [ {| boxes := Some [stray_box; car_in_roi] |} ]).
Proof.
  apply (drawing_without_name_table (fun _ => "0.00"%string) (fun _ => (40, 10))
           [ {| boxes := Some [stray_box; car_in_roi] |} ] (Some depth_1500) None).
  - left. reflexivity.
  - apply depth_1500_nonempty.
Defined.

(** ** The distance label *)



(** ** The collision alert box *)

(** X23.  The box of the collision alert is 40 pixels wider and higher than
    the alert text and centred in the frame up to one pixel on each axis; it
    lies inside the frame whenever the frame is at least as wide and as high
    as the box. *)
Theorem collision_alert_box_is_centred (text_width text_height : Z) (w h : Z) :
  let box := AlertBox.draw_collision_alert (text_width, text_height) w h in
  let rect_left := fst (fst box) in
  let rect_top := snd (fst box) in
  let rect_right := fst (snd box) in
  let rect_bottom := snd (snd box) in
  rect_right - rect_left = text_width + 40
  /\ rect_bottom - rect_top = text_height + 40
  /\ (0 <= (w - rect_right) - rect_left <= 1)
  /\ (0 <= (h - rect_bottom) - rect_top <= 1)
  /\ (text_width + 40 <= w -> 0 <= rect_left /\ rect_right <= w)
  /\ (text_height + 40 <= h -> 0 <= rect_top /\ rect_bottom <= h).
Proof.
  unfold AlertBox.draw_collision_alert. cbn [fst snd]. cbv zeta.
  pose proof (Z.div_mod (w - text_width) 2 ltac:(lia)) as Ew.
  pose proof (Z.mod_pos_bound (w - text_width) 2 ltac:(lia)) as Bw.
  pose proof (Z.div_mod (h + text_height) 2 ltac:(lia)) as Eh.
  pose proof (Z.mod_pos_bound (h + text_height) 2 ltac:(lia)) as Bh.
  set (qx := (w - text_width) / 2) in *. set (qy := (h + text_height) / 2) in *.
  repeat match goal with |- _ /\ _ => split end; lia.
Qed.

Lemma collision_alert_box_is_centred_witness :
  0 <= fst (fst (AlertBox.draw_collision_alert (270, 22) 800 600))
  /\ fst (snd (AlertBox.draw_collision_alert (270, 22) 800 600)) <= 800.
Proof.
  destruct (collision_alert_box_is_centred 270 22 800 600) as [_ [_ [_ [_ [H _]]]]].
  apply H. lia.
Defined.

(** ** A nearer scene *)

Lemma insert_sorted_head_of_sorted (y : Q) (t : list Q) :
  Sorted Qle (y :: t) -> insert_sorted y t = y :: t.
Proof.
  intros Hs. destruct t as [|z t]; [reflexivity|].
  inversion Hs as [|? ? _ Hhd]; subst. inversion Hhd as [|? ? Hyz]; subst.
  simpl. apply Qle_bool_iff in Hyz. rewrite Hyz. reflexivity.
Qed.

Lemma Qle_bool_false (x y : Q) : Qle_bool x y = false -> (y <= x)%Q.
Proof.
  intros H. apply Qlt_le_weak, Qnot_le_lt. intros Hle.
  apply Qle_bool_iff in Hle. congruence.
Qed.

(** Inserting a smaller value into a pointwise smaller sorted list gives a
    pointwise smaller list. *)
Lemma insert_sorted_dominated (s1 s2 : list Q) :
  Forall2 Qle s1 s2 -> Sorted Qle s1 -> Sorted Qle s2 ->
  forall x1 x2, (x1 <= x2)%Q ->
  Forall2 Qle (insert_sorted x1 s1) (insert_sorted x2 s2).
Proof.
  induction 1 as [|y1 y2 t1 t2 Hy Ht IH]; intros Hs1 Hs2 x1 x2 Hx.
  - simpl. constructor; [exact Hx | constructor].
  - assert (Ht1 : Sorted Qle t1) by (inversion Hs1; assumption).
    assert (Ht2 : Sorted Qle t2) by (inversion Hs2; assumption).
    simpl.
    destruct (Qle_bool x1 y1) eqn:E1; destruct (Qle_bool x2 y2) eqn:E2.
    + constructor; [exact Hx|]. constructor; assumption.
    + apply Qle_bool_iff in E1. apply Qle_bool_false in E2.
      constructor; [apply Qle_trans with y1; assumption|].
      rewrite <- (insert_sorted_head_of_sorted y1 t1 Hs1).
      apply IH; try assumption. apply Qle_trans with y2; assumption.
    + apply Qle_bool_false in E1. apply Qle_bool_iff in E2.
      constructor; [apply Qle_trans with x1; assumption|].
      rewrite <- (insert_sorted_head_of_sorted y2 t2 Hs2).
      apply IH; try assumption. apply Qle_trans with x2; assumption.
    + constructor; [exact Hy|]. apply IH; assumption.
Qed.

Lemma np_sort_dominated (l1 l2 : list Q) :
  Forall2 Qle l1 l2 -> Forall2 Qle (np_sort l1) (np_sort l2).
Proof.
  induction 1 as [|x1 x2 l1 l2 Hx Hl IH]; simpl; [constructor|].
  apply insert_sorted_dominated; try assumption; apply np_sort_sorted.
Qed.

Lemma nth_dominated (s1 s2 : list Q) (k : nat) :
  Forall2 Qle s1 s2 -> (nth k s1 0 <= nth k s2 0)%Q.
Proof.
  intros H. revert k. induction H as [|x1 x2 s1 s2 Hx Hs IH]; intros k.
  - destruct k; apply Qle_refl.
  - destruct k; [exact Hx | apply IH].
Qed.

Lemma np_gt_dominated (l1 l2 : list Q) (t : Z) :
  Forall2 Qle l1 l2 ->
  np_gt (np_median l1) t = true -> np_gt (np_median l2) t = true.
Proof.
  intros H. pose proof (np_sort_dominated _ _ H) as Hs.
  pose proof (List.Forall2_length H) as Hlen.
  destruct H as [|x1 x2 l1 l2 Hx Hl]; [discriminate|].
  unfold np_median. rewrite <- Hlen.
  set (n := length (x1 :: l1)) in *.
  pose proof (nth_dominated _ _ (n / 2) Hs) as Hmid.
  pose proof (nth_dominated _ _ (n / 2 - 1) Hs) as Hlow.
  destruct (Nat.even n); cbn [np_gt]; rewrite !Qgtb_true_iff; intros Hgt.
  - eapply Qlt_le_trans; [exact Hgt|].
    apply Qle_shift_div_l; [reflexivity|].
    set (a1 := nth (n / 2 - 1) (np_sort (x1 :: l1)) 0%Q) in *.
    set (b1 := nth (n / 2) (np_sort (x1 :: l1)) 0%Q) in *.
    set (a2 := nth (n / 2 - 1) (np_sort (x2 :: l2)) 0%Q) in *.
    set (b2 := nth (n / 2) (np_sort (x2 :: l2)) 0%Q) in *.
    assert (Hdiv : ((a1 + b1) / 2 * 2 == a1 + b1)%Q) by (field).
    rewrite Hdiv. lra.
  - eapply Qlt_le_trans; [exact Hgt | exact Hmid].
Qed.

Lemma sample_indices_same_shape (a b : ndarray) (center_x center_y sample_size : Z) :
  shape0 b = shape0 a -> shape1 b = shape1 a ->
  sample_indices b center_x center_y sample_size
  = sample_indices a center_x center_y sample_size.
Proof.
  intros H0 H1. unfold sample_indices, sample_index. rewrite H0, H1. reflexivity.
Qed.

Lemma median_depth_exceeds_b_nearer (a b : ndarray) (box : Box) (sample_size t : Z) :
  nowhere_farther a b -> nonempty a ->
  median_depth_exceeds_b (Some a) box sample_size t = true ->
  median_depth_exceeds_b (Some b) box sample_size t = true.
Proof.
  intros [H0 [H1 Hle]] Hne.
  assert (Hneb : nonempty b) by (unfold nonempty in *; rewrite H0, H1; exact Hne).
  unfold median_depth_exceeds_b, get_depth_at_location.
  rewrite (sample_depth_values_nonempty a _ _ _ Hne),
    (sample_depth_values_nonempty b _ _ _ Hneb).
  cbn [bind]. rewrite (sample_indices_same_shape a b _ _ _ H0 H1).
  apply np_gt_dominated.
  pose proof (sample_indices_in_bounds a (center_x box) (center_y box) sample_size Hne)
    as Hb.
  induction Hb as [|yx idx Hyx _ IH]; simpl; constructor; [apply Hle, Hyx | exact IH].
Qed.

Lemma filter_sublist {A : Type} (f g : A -> bool) (l : list A) :
  (forall x, f x = true -> g x = true) ->
  sublist (List.filter f l) (List.filter g l).
Proof.
  intros Hfg. induction l as [|x l IH]; simpl; [constructor|].
  destruct (f x) eqn:Ef.
  - rewrite (Hfg x Ef). apply sublist_skip. exact IH.
  - destruct (g x); [apply sublist_cons|]; exact IH.
Qed.

Lemma map_sublist {A B : Type} (f : A -> B) (l l' : list A) :
  sublist l l' -> sublist (map f l) (map f l').
Proof.
  induction 1; simpl; [constructor | apply sublist_skip | apply sublist_cons];
    assumption.
Qed.

(** X24.  A nearer scene keeps the warnings: if a second depth map of the
    same shape is nowhere smaller than the first, a collision on the first is
    a collision on the second, and the close lists of the first are sublists
    of the close lists of the second. *)
Theorem nearer_scene_keeps_warnings (results : list Result) (a b : ndarray)
    (frame_width frame_height : Z) (class_names : gmap Z string) :
  nowhere_farther a b ->
  nonempty a ->
  known_classes class_names results ->
  (ROIManager.check_collision_alert results (Some a) frame_width frame_height
     class_names = Ok true ->
   ROIManager.check_collision_alert results (Some b) frame_width frame_height
     class_names = Ok true)
  /\ exists l r l' r',
       WarningSystem.get_close_vehicles_by_side results (Some a) frame_width class_names
       = Ok (l, r)
       /\ WarningSystem.get_close_vehicles_by_side results (Some b) frame_width
            class_names = Ok (l', r')
       /\ sublist l l' /\ sublist r r'.
Proof.
  intros Hab Hne Hknown.
  assert (Hneb : nonempty b).
  { destruct Hab as [H0 [H1 _]]. unfold nonempty in *. rewrite H0, H1. exact Hne. }
  assert (Hclose : forall box, close_b (Some a) box = true -> close_b (Some b) box = true).
  { intros box. unfold close_b. rewrite !andb_true_iff. intros [Hq Hm].
    split; [exact Hq|]. exact (median_depth_exceeds_b_nearer a b box _ _ Hab Hne Hm). }
  split.
  - unfold ROIManager.check_collision_alert.
    rewrite (collision_results_loop_total (Some a) _ _ _ _ false Hne Hknown).
    rewrite (collision_results_loop_total (Some b) _ _ _ _ false Hneb Hknown).
    rewrite !orb_false_r. intros E. injection E as E'. f_equal.
    apply existsb_exists in E'. destruct E' as [box [Hin Hhit]].
    apply existsb_exists. exists box. split; [exact Hin|].
    unfold collision_condition_b in *. rewrite !andb_true_iff in *.
    destruct Hhit as [Hqr Hm]. split; [exact Hqr|].
    exact (median_depth_exceeds_b_nearer a b box _ _ Hab Hne Hm).
  - unfold WarningSystem.get_close_vehicles_by_side.
    rewrite (close_results_loop_total (Some a) _ _ _ [] [] Hne Hknown).
    rewrite (close_results_loop_total (Some b) _ _ _ [] [] Hneb Hknown).
    do 4 eexists. split; [reflexivity|]. split; [reflexivity|].
    cbn [app]. split; apply map_sublist, filter_sublist; intros box;
      rewrite !andb_true_iff; intros [Hc Hside]; (split; [apply Hclose, Hc | exact Hside]).
Qed.

Lemma depth_700_1500 : nowhere_farther depth_700 depth_1500.
Proof.
  split; [reflexivity|]. split; [reflexivity|].
  intros yx _. unfold value_at. simpl. unfold Qle. simpl. lia.
Qed.

Lemma nearer_scene_keeps_warnings_witness :
  ROIManager.check_collision_alert
    [ {| boxes := Some [traffic_light; car_in_roi] |} ] (Some depth_1500) 800 600
    two_names = Ok true.
Proof.
  destruct (nearer_scene_keeps_warnings
              [ {| boxes := Some [traffic_light; car_in_roi] |} ]
              depth_700 depth_1500 800 600 two_names) as [H _].
  - apply depth_700_1500.
  - apply depth_700_nonempty.
  - apply known_classes_singleton.
    repeat constructor; [apply two_names_traffic_light | apply two_names_car].
  - apply H. vm_compute. reflexivity.
Defined.

(** ** The majority of the sampled pixels decides *)








